(** * examples/simple_usage.py of the TSFM python client

    A shallow embedding of the example script and a verification of what
    its exception boundaries guarantee.

    The script only sequences calls into the external [tsfm_client]
    library, prints, and [try]/[except Exception] blocks.  It is embedded
    in a small exception monad that threads an append-only event trace;
    the behaviour of the external library is a parameter (a [World]) that
    answers every call, knowing the whole history so far, either with a
    returned object or with a raised exception.

    Every event carries the line of [simple_usage.py] it comes from.

    What may raise is what belongs to [tsfm_client]: the constructor, the
    module function [predict], the methods of the client, the attribute
    reads and [to_pandas] of a response; they may raise an exception of
    any class, and the handlers of the script, all [except Exception],
    catch the instances of [Exception] only.  [print], the formatting of
    a value into an f-string, the truth test of a value and the pandas
    and numpy expressions of the script are taken to be total. *)

From Stdlib Require Import String Ascii List ZArith Lia Bool PeanoNat.
From Stdlib Require Import DecimalString.
Import ListNotations.
Open Scope string_scope.
Open Scope list_scope.
Open Scope nat_scope.

(** string concatenation, as [+] on [str] and the pieces of an f-string *)
Notation "s1 +++ s2" := (String.append s1 s2) (at level 60, right associativity).

(** ** Python values seen by the script *)

(** An exception instance, of any class.  [exn_class] is the name of its
    class, [exn_is_exception] is [isinstance(e, Exception)]: false for the
    exceptions that derive from [BaseException] only ([KeyboardInterrupt],
    [SystemExit], ...), and [exn_msg] is [str(e)], which is what [f"{e}"]
    renders. *)
Record Exn := mkExn {
  exn_class : string;
  exn_is_exception : bool;
  exn_msg : string
}.

(** An object handed out by the library.  The script only ever formats
    such objects into an f-string ([obj_repr]), tests them in an [if]
    ([obj_truthy]) or hands them back to the library. *)
Record PyObj := mkObj { obj_repr : string; obj_truthy : bool }.

(** The [data] argument of predict: a list literal of integers, or a
    [pd.Series] built by the script (number of periods and optional name;
    its float values are random, so they are not part of the model). *)
Inductive Data :=
| DList (xs : list Z)
| DSeries (periods : nat) (name : option string).

(** The keyword arguments of a predict call; [None] is an argument the
    call site leaves out. *)
Record PredictArgs := mkArgs {
  data : Data;
  forecast_horizon : option Z;
  confidence_intervals : option bool;
  model : option string
}.

(** The operations of [tsfm_client] that the script uses. *)
Inductive Call :=
| CPredictFn (a : PredictArgs)                 (* predict(...)            *)
| CConstruct                                   (* SimpleTSFMClient()      *)
| CListModels (client : PyObj)                 (* client.list_models()    *)
| CPredict (client : PyObj) (a : PredictArgs)  (* client.predict(...)     *)
| CHealthCheck (client : PyObj)                (* client.health_check()   *)
| CGetModelInfo (client : PyObj) (name : string)
| CGetAttr (o : PyObj) (attr : string)         (* response.<attr>         *)
| CToPandas (o : PyObj).                       (* response.to_pandas()    *)

Inductive Outcome :=
| Returns (v : PyObj)
| Raises (e : Exn).

Inductive Event :=
| EPrint (line : nat) (text : string)
| ECall (line : nat) (c : Call) (o : Outcome).

Definition Trace := list Event.

(** Everything outside the script.  [respond h c] is what the library does
    when [c] is called after history [h].  [ts_head] and [sales_tail] are
    the renderings of [ts_data.head().tolist()] and [sales_data.tail()],
    which depend on numpy's random numbers. *)
Record World := mkWorld {
  respond : Trace -> Call -> Outcome;
  ts_head : string;
  sales_tail : string
}.

(** ** String helpers for the literals and f-strings of the script *)

Definition nl : string := String (ascii_of_nat 10) "".

(** [s * n] *)
Fixpoint str_mul (s : string) (n : nat) : string :=
  match n with
  | O => ""
  | S k => s +++ str_mul s k
  end.

Definition repr_Z (z : Z) : string := NilZero.string_of_int (Z.to_int z).

Definition repr_nat (n : nat) : string := NilZero.string_of_uint (Nat.to_uint n).

Fixpoint join (sep : string) (xs : list string) : string :=
  match xs with
  | [] => ""
  | [x] => x
  | x :: rest => x +++ sep +++ join sep rest
  end.

(** [str] of a list of ints *)
Definition repr_list (xs : list Z) : string :=
  "[" +++ join ", " (map repr_Z xs) +++ "]".

(** ** The monad: exceptions over an append-only trace *)

Inductive Res (A : Type) :=
| Ok (a : A)
| Raise (e : Exn).
Arguments Ok {A} a.
Arguments Raise {A} e.

(** A computation reads the world and the history and yields a result with
    the events it added. *)
Definition M (A : Type) : Type := World -> Trace -> Res A * Trace.

Definition ret {A} (a : A) : M A := fun _ _ => (Ok a, []).

Definition bind {A B} (m : M A) (k : A -> M B) : M B :=
  fun w h =>
    match m w h with
    | (Ok a, d) => let (r, d') := k a w (h ++ d) in (r, d ++ d')
    | (Raise e, d) => (Raise e, d)
    end.

Declare Scope py_scope.
Delimit Scope py_scope with py.
Notation "x <- c1 ;; c2" := (bind c1 (fun x => c2))
  (at level 61, c1 at next level, right associativity) : py_scope.
Notation "c1 ;; c2" := (bind c1 (fun _ => c2))
  (at level 61, right associativity) : py_scope.
Open Scope py_scope.

(** [print(text)] at source line [ln] *)
Definition print (ln : nat) (text : string) : M unit :=
  fun _ _ => (Ok tt, [EPrint ln text]).

(** a call into the library at source line [ln] *)
Definition call (ln : nat) (c : Call) : M PyObj :=
  fun w h =>
    let o := respond w h c in
    (match o with Returns v => Ok v | Raises e => Raise e end, [ECall ln c o]).

(** [try: body / except Exception as e: handler e]: the clause catches
    the instances of [Exception] and lets every other exception through *)
Definition try_except (body : M unit) (handler : Exn -> M unit) : M unit :=
  fun w h =>
    match body w h with
    | (Ok a, d) => (Ok a, d)
    | (Raise e, d) =>
        if exn_is_exception e
        then let (r, d') := handler e w (h ++ d) in (r, d ++ d')
        else (Raise e, d)
    end.

(** reading the environment, for the pandas renderings *)
Definition ask {A} (f : World -> A) : M A := fun w _ => (Ok (f w), []).

(** [if c: body] *)
Definition when (c : bool) (body : M unit) : M unit :=
  if c then body else ret tt.

(** ** The script *)

Definition error_prefix : string := "❌ Error: ".

Definition toto_prefix : string := "⚠️  TOTO model not available: ".

(** [f"❌ Error: {e}"] *)
Definition error_text (e : Exn) : string := error_prefix +++ exn_msg e.

(** [f"⚠️  TOTO model not available: {e}"] *)
Definition toto_text (e : Exn) : string := toto_prefix +++ exn_msg e.

Definition one_to_ten : list Z := [1; 2; 3; 4; 5; 6; 7; 8; 9; 10]%Z.

(** lines 19-35 *)
Definition example1 : M unit :=
  print 20 (nl +++ "1. Quick Prediction (Global Function)") ;;
  print 21 (str_mul "-" 40) ;;
  let data := [10; 12; 13; 15; 17; 16; 18; 20; 22; 25]%Z in
  print 24 ("Input data: " +++ repr_list data) ;;
  try_except
    (response <- call 27 (CPredictFn (mkArgs (DList data) (Some 5%Z) None None)) ;;
     forecast <- call 31 (CGetAttr response "forecast") ;;
     print 31 ("✅ Forecast: " +++ obj_repr forecast) ;;
     model_name <- call 32 (CGetAttr response "model_name") ;;
     print 32 ("   Model: " +++ obj_repr model_name) ;;
     metadata <- call 33 (CGetAttr response "metadata") ;;
     print 33 ("   Metadata: " +++ obj_repr metadata))
    (fun e => print 35 (error_text e)).

(** lines 37-63; [client] is a local of [main] that the later examples
    use, so the block yields it *)
Definition example2 : M PyObj :=
  print 38 (nl +++ "2. Client Instance (Multiple Predictions)") ;;
  print 39 (str_mul "-" 40) ;;
  client <- call 41 CConstruct ;;
  try_except
    (models <- call 45 (CListModels client) ;;
     print 46 ("Available models: " +++ obj_repr models) ;;
     response <- call 49 (CPredict client (mkArgs (DList one_to_ten) None None None)) ;;
     forecast <- call 50 (CGetAttr response "forecast") ;;
     print 50 ("✅ Simple forecast: " +++ obj_repr forecast) ;;
     response <- call 53 (CPredict client
                   (mkArgs (DList one_to_ten) (Some 3%Z) (Some true) None)) ;;
     forecast <- call 58 (CGetAttr response "forecast") ;;
     print 58 ("✅ Forecast with CI: " +++ obj_repr forecast) ;;
     ci <- call 59 (CGetAttr response "confidence_intervals") ;;
     when (obj_truthy ci)
       (ci <- call 60 (CGetAttr response "confidence_intervals") ;;
        print 60 ("   Confidence intervals: " +++ obj_repr ci)))
    (fun e => print 63 (error_text e)) ;;
  ret client.

(** lines 65-85 *)
Definition example3 (client : PyObj) : M unit :=
  print 66 (nl +++ "3. Using Pandas Series") ;;
  print 67 (str_mul "-" 40) ;;
  try_except
    (let ts_data := DSeries 20 None in
     print 74 ("Pandas series shape: (" +++ repr_nat 20 +++ ",)") ;;
     head <- ask ts_head ;;
     print 75 ("Sample values: " +++ head) ;;
     response <- call 77 (CPredict client
                   (mkArgs ts_data (Some 7%Z) None (Some "chronos-t5-small"))) ;;
     forecast <- call 82 (CGetAttr response "forecast") ;;
     print 82 ("✅ Forecast: " +++ obj_repr forecast))
    (fun e => print 85 (error_text e)).

(** lines 87-114 *)
Definition example4 (client : PyObj) : M unit :=
  print 88 (nl +++ "4. Different Models") ;;
  print 89 (str_mul "-" 40) ;;
  let test_data := [5; 6; 7; 8; 9; 10; 11; 12; 13; 14]%Z in
  try_except
    (response1 <- call 95 (CPredict client
                    (mkArgs (DList test_data) (Some 3%Z) None (Some "chronos-t5-small"))) ;;
     forecast <- call 100 (CGetAttr response1 "forecast") ;;
     print 100 ("✅ Chronos T5 Small: " +++ obj_repr forecast) ;;
     try_except
       (response2 <- call 104 (CPredict client
                       (mkArgs (DList test_data) (Some 3%Z) None (Some "toto-open-base-1.0"))) ;;
        forecast <- call 109 (CGetAttr response2 "forecast") ;;
        print 109 ("✅ TOTO Open Base: " +++ obj_repr forecast))
       (fun e => print 111 (toto_text e)))
    (fun e => print 114 (error_text e)).

(** lines 116-130 *)
Definition example5 (client : PyObj) : M unit :=
  print 117 (nl +++ "5. Model Info & Health Check") ;;
  print 118 (str_mul "-" 40) ;;
  try_except
    (health <- call 122 (CHealthCheck client) ;;
     print 123 ("✅ Health check: " +++ obj_repr health) ;;
     info <- call 126 (CGetModelInfo client "chronos-t5-small") ;;
     print 127 ("✅ Model info: " +++ obj_repr info))
    (fun e => print 130 (error_text e)).

Definition completed_text : string := nl +++ "🎉 All examples completed!".

(** lines 12-132 *)
Definition main : M unit :=
  print 16 "🚀 TSFM Client - Simple Usage Examples" ;;
  print 17 (str_mul "=" 50) ;;
  example1 ;;
  client <- example2 ;;
  example3 client ;;
  example4 client ;;
  example5 client ;;
  print 132 completed_text.

(** lines 135-171 *)
Definition pandas_example : M unit :=
  print 139 (nl +++ "📊 Advanced Pandas Example") ;;
  print 140 (str_mul "=" 30) ;;
  let sales_data := DSeries 50 (Some "sales") in
  print 152 "Sample data (last 5 days):" ;;
  tail <- ask sales_tail ;;
  print 153 tail ;;
  try_except
    (response <- call 157 (CPredictFn (mkArgs sales_data (Some 10%Z) (Some true) None)) ;;
     forecast <- call 163 (CGetAttr response "forecast") ;;
     print 163 ((nl +++ "✅ 10-day forecast: ") +++ obj_repr forecast) ;;
     forecast_df <- call 166 (CToPandas response) ;;
     print 167 (nl +++ "Forecast DataFrame:") ;;
     print 168 (obj_repr forecast_df))
    (fun e => print 171 (error_text e)).

(** lines 174-182: the module run as [__main__] *)
Definition script : M unit :=
  print 175 "Make sure the TSFM server is running on http://localhost:8000" ;;
  print 176 "" ;;
  main ;;
  pandas_example.

Definition script_result (w : World) : Res unit := fst (script w []).
Definition script_trace (w : World) : Trace := snd (script w []).

(** ** Observations on traces *)

Definition line_of (ev : Event) : nat :=
  match ev with
  | EPrint ln _ => ln
  | ECall ln _ _ => ln
  end.

Definition is_call_at (ln : nat) (ev : Event) : bool :=
  match ev with
  | ECall l _ _ => l =? ln
  | EPrint _ _ => false
  end.

Definition is_raise_at (ln : nat) (ev : Event) : bool :=
  match ev with
  | ECall l _ (Raises _) => l =? ln
  | _ => false
  end.

Definition is_raise (ev : Event) : bool :=
  match ev with
  | ECall _ _ (Raises _) => true
  | _ => false
  end.

Definition is_print_at (ln : nat) (ev : Event) : bool :=
  match ev with
  | EPrint l _ => l =? ln
  | ECall _ _ _ => false
  end.

(** the library was called from line [ln] *)
Definition called_at (ln : nat) (t : Trace) : bool := existsb (is_call_at ln) t.

(** a call made from line [ln] raised *)
Definition raised_at (ln : nat) (t : Trace) : bool := existsb (is_raise_at ln) t.

(** some call raised *)
Definition any_raise (t : Trace) : bool := existsb is_raise t.

(** the [print] of line [ln] ran *)
Definition printed_at (ln : nat) (t : Trace) : bool := existsb (is_print_at ln) t.

(** The part of the script a source line belongs to: 0 for the prologue
    of the [__main__] block and the banner of [main], 1 to 5 for the
    examples of [main] (from the comment [# Method k] to the end of the
    example's [except] clause), 6 for the closing banner of [main], 7 for
    [pandas_example]. *)
Definition stage (ln : nat) : nat :=
  if ln <? 19 then 0
  else if ln <? 37 then 1
  else if ln <? 65 then 2
  else if ln <? 87 then 3
  else if ln <? 116 then 4
  else if ln <? 132 then 5
  else if ln <? 135 then 6
  else if ln <? 174 then 7
  else 0.

Definition stage_of (ev : Event) : nat := stage (line_of ev).

Definition all_in_stage (k : nat) (t : Trace) : bool :=
  forallb (fun ev => stage_of ev =? k) t.

(** the events of part [k] *)
Definition events_of (k : nat) (t : Trace) : Trace :=
  filter (fun ev => stage_of ev =? k) t.

Definition between (lo hi ln : nat) : bool := (lo <=? ln) && (ln <=? hi).

(** The [except] clause that encloses a source line most closely: the line
    of its [print] and the prefix it prints before [str(e)].  [None] for a
    line outside every [try] body. *)
Definition handler_of (ln : nat) : option (nat * string) :=
  if between 27 33 ln then Some (35, error_prefix)
  else if between 44 61 ln then Some (63, error_prefix)
  else if between 70 83 ln then Some (85, error_prefix)
  else if between 104 109 ln then Some (111, toto_prefix)
  else if between 94 112 ln then Some (114, error_prefix)
  else if between 121 128 ln then Some (130, error_prefix)
  else if between 156 169 ln then Some (171, error_prefix)
  else None.

Definition outcome {A : Type} (r : Res A) : option Exn :=
  match r with
  | Ok _ => None
  | Raise e => Some e
  end.

(** a raise that no handler of the script catches: it comes from a line
    outside every [try], or the exception is no instance of [Exception] *)
Definition uncaught (ev : Event) : bool :=
  match ev with
  | ECall ln _ (Raises e) =>
      match handler_of ln with
      | Some _ => negb (exn_is_exception e)
      | None => true
      end
  | _ => false
  end.

Definition any_uncaught (t : Trace) : bool := existsb uncaught t.

(** an uncaught raise happened in a part before part [k] *)
Definition stopped_before (k : nat) (t : Trace) : bool :=
  existsb (fun ev => uncaught ev && (stage_of ev <? k)) t.

(** the print of the handler [hl], [pfx] for exception [e] comes first *)
Definition reported_next (hl : nat) (pfx : string) (e : Exn) (rest : Trace) : Prop :=
  match rest with
  | EPrint l s :: _ => l = hl /\ s = pfx +++ exn_msg e
  | _ => False
  end.

(** What becomes of the raises of [t], [r] being the exception [t] ends
    with, if any: a raise that a handler catches is followed at once by
    the print of that handler, and a raise that none catches is the last
    event and is how the computation ends. *)
Fixpoint settled (t : Trace) (r : option Exn) : Prop :=
  match t with
  | [] => r = None
  | ECall ln _ (Raises e) :: rest =>
      match handler_of ln with
      | Some (hl, pfx) =>
          if exn_is_exception e
          then reported_next hl pfx e rest /\ settled rest r
          else rest = [] /\ r = Some e
      | None => rest = [] /\ r = Some e
      end
  | _ :: rest => settled rest r
  end.

(** a forecast was read from a response and printed by the same line *)
Inductive forecast_reported : Trace -> Prop :=
| fr_here ln r v pfx rest :
    forecast_reported
      (ECall ln (CGetAttr r "forecast") (Returns v)
         :: EPrint ln (pfx +++ obj_repr v) :: rest)
| fr_later ev rest :
    forecast_reported rest -> forecast_reported (ev :: rest).


Definition reads_forecast (ev : Event) : bool :=
  match ev with
  | ECall _ (CGetAttr _ a) _ => String.eqb a "forecast"
  | _ => false
  end.

(** the arguments of a predict call, through the module function or the
    client method *)
Definition predict_args (c : Call) : option PredictArgs :=
  match c with
  | CPredictFn a => Some a
  | CPredict _ a => Some a
  | _ => None
  end.

Definition data_given (d : Data) : bool :=
  match d with
  | DList xs => negb (length xs =? 0)
  | DSeries n _ => negb (n =? 0)
  end.

Definition horizon_given (a : PredictArgs) : bool :=
  match forecast_horizon a with
  | Some _ => true
  | None => false
  end.

(** neither confidence bounds nor a model name is passed *)
Definition no_options (a : PredictArgs) : bool :=
  match confidence_intervals a, model a with
  | None, None => true
  | _, _ => false
  end.

(** a predict call passes a series, and a horizon unless it is the call
    of line 49, which passes nothing but the series *)
Definition predict_site_ok (ev : Event) : bool :=
  match ev with
  | ECall ln c _ =>
      match predict_args c with
      | Some a =>
          data_given (data a)
          && Bool.eqb (horizon_given a) (negb (ln =? 49))
          && (negb (ln =? 49) || no_options a)
      | None => true
      end
  | EPrint _ _ => true
  end.

Definition is_construct (c : Call) : bool :=
  match c with
  | CConstruct => true
  | _ => false
  end.

(** line 41 calls the constructor and no other line does *)
Definition construct_site_ok (ev : Event) : bool :=
  match ev with
  | ECall ln c _ => Bool.eqb (is_construct c) (ln =? 41)
  | EPrint _ _ => true
  end.

(** the lines of the calls of [t] increase strictly, inside [(lo, hi]] *)
Fixpoint calls_ascend (lo hi : nat) (t : Trace) : bool :=
  match t with
  | [] => lo <=? hi
  | ECall ln _ _ :: rest => (lo <? ln) && calls_ascend ln hi rest
  | EPrint _ _ :: rest => calls_ascend lo hi rest
  end.

(** the stages of [t] never decrease, starting from [lo] *)
Fixpoint stages_ascend (lo : nat) (t : Trace) : bool :=
  match t with
  | [] => true
  | ev :: rest => (lo <=? stage_of ev) && stages_ascend (stage_of ev) rest
  end.

(** every line that calls the library lies in a [try], except line 41 *)
Definition guarded_site (ev : Event) : bool :=
  match ev with
  | ECall ln _ _ =>
      match handler_of ln with
      | Some _ => true
      | None => ln =? 41
      end
  | EPrint _ _ => true
  end.

Definition is_some {A : Type} (o : option A) : bool :=
  match o with
  | Some _ => true
  | None => false
  end.

Definition result (o : option Exn) : Res unit :=
  match o with
  | None => Ok tt
  | Some e => Raise e
  end.

(** ** What each block of the script is shown to do *)

(** Facts about what a block emits, which also hold of a block that is
    not reached and emits nothing: the events belong to stage [k], call
    lines ascend within [(lo, hi]] ([lo] being the last line of the block
    before), predict calls pass what they should, the constructor is
    called from line 41 only. *)
Record block_ok (k lo hi : nat) (d : Trace) : Prop := mkBlock {
  blk_stage : all_in_stage k d = true;
  blk_calls : calls_ascend lo hi d = true;
  blk_predict : forallb predict_site_ok d = true;
  blk_construct : forallb construct_site_ok d = true;
  blk_guarded : forallb guarded_site d = true
}.

Definition heading1 : string := nl +++ "1. Quick Prediction (Global Function)".
Definition heading2 : string := nl +++ "2. Client Instance (Multiple Predictions)".
Definition heading3 : string := nl +++ "3. Using Pandas Series".
Definition heading4 : string := nl +++ "4. Different Models".
Definition heading5 : string := nl +++ "5. Model Info & Health Check".
Definition heading_pandas : string := nl +++ "📊 Advanced Pandas Example".

(** A block that runs and ends with [r] has its raises settled, prints
    its heading (line [hl]), makes its first call (line [first]), and,
    when none of its calls raises, reads and prints a forecast. *)
Definition block_ran (hl : nat) (heading : string) (first : nat)
           (r : option Exn) (d : Trace) : Prop :=
  settled d r /\
  In (EPrint hl heading) d /\
  called_at first d = true /\
  (any_raise d = false -> forecast_reported d).

Definition example1_facts (d : Trace) : Prop := block_ok 1 0 35 d.

Definition example1_ran : option Exn -> Trace -> Prop :=
  block_ran 20 heading1 27.

Definition example2_facts (d : Trace) : Prop :=
  block_ok 2 35 63 d /\
  (raised_at 45 d = true -> called_at 49 d = false /\ called_at 53 d = false) /\
  (raised_at 49 d = true -> called_at 53 d = false).

(** the first call of example 2 is the constructor; its first guarded call,
    of line 45, is made when the constructor returns *)
Definition example2_ran (r : option Exn) (d : Trace) : Prop :=
  block_ran 38 heading2 41 r d /\
  (raised_at 41 d = false -> called_at 45 d = true).

Definition example3_facts (d : Trace) : Prop := block_ok 3 63 85 d.

Definition example3_ran : option Exn -> Trace -> Prop :=
  block_ran 66 heading3 77.

Definition example4_facts (d : Trace) : Prop :=
  block_ok 4 85 114 d /\
  (raised_at 104 d = true -> printed_at 114 d = false) /\
  (printed_at 114 d = true -> raised_at 95 d = true \/ raised_at 100 d = true) /\
  (forall c e,
     In (ECall 104 c (Raises e)) d -> exn_is_exception e = true ->
     any_uncaught d = false).

Definition example4_ran : option Exn -> Trace -> Prop :=
  block_ran 88 heading4 95.

Definition example5_facts (d : Trace) : Prop :=
  block_ok 5 114 130 d /\ existsb reads_forecast d = false.

(** example 5 asks for no forecast: when none of its calls raises it
    prints what [health_check] and [get_model_info] returned *)
Definition example5_ran (r : option Exn) (d : Trace) : Prop :=
  settled d r /\
  In (EPrint 117 heading5) d /\
  called_at 122 d = true /\
  (any_raise d = false ->
   exists client health info,
     In (ECall 122 (CHealthCheck client) (Returns health)) d /\
     In (EPrint 123 ("✅ Health check: " +++ obj_repr health)) d /\
     In (ECall 126 (CGetModelInfo client "chronos-t5-small") (Returns info)) d /\
     In (EPrint 127 ("✅ Model info: " +++ obj_repr info)) d).

Definition pandas_facts (d : Trace) : Prop := block_ok 7 130 171 d.

Definition pandas_ran : option Exn -> Trace -> Prop :=
  block_ran 139 heading_pandas 157.

Definition prologue : Trace :=
  [EPrint 175 "Make sure the TSFM server is running on http://localhost:8000";
   EPrint 176 ""].

Definition banner : Trace :=
  [EPrint 16 "🚀 TSFM Client - Simple Usage Examples";
   EPrint 17 (str_mul "=" 50)].

(** [got] is what [run] gives when the computation before it ended
    normally ([o] is [None]); when that one raised, nothing runs and the
    exception goes on *)
Definition follows {A : Type} (o : option Exn) (run got : Res A * Trace) : Prop :=
  match o with
  | None => run = got
  | Some e => got = (Raise e, [])
  end.

(** The anatomy of a call of [main]: what each of its blocks emitted,
    from which history, and with what result. *)
Inductive main_parts (w : World) (h : Trace) : Res unit -> Trace -> Prop :=
| main_of h1 h2 h3 h4 h5 (cl : PyObj) r1 d1 r2 d2 r3 d3 r4 d4 r5 d5 r6 fin t :
    example1 w h1 = (r1, d1) ->
    follows (outcome r1) (example2 w h2) (r2, d2) ->
    (forall v, r2 = Ok v -> v = cl) ->
    follows (outcome r2) (example3 cl w h3) (r3, d3) ->
    follows (outcome r3) (example4 cl w h4) (r4, d4) ->
    follows (outcome r4) (example5 cl w h5) (r5, d5) ->
    follows (outcome r5) (Ok tt, [EPrint 132 completed_text]) (r6, fin) ->
    t = banner ++ d1 ++ d2 ++ d3 ++ d4 ++ d5 ++ fin ->
    main_parts w h r6 t.

(** The anatomy of a run of the script. *)
Inductive script_parts (w : World) : Res unit -> Trace -> Prop :=
| script_of rm dm h7 r7 d7 t :
    main_parts w prologue rm dm ->
    main w prologue = (rm, dm) ->
    follows (outcome rm) (pandas_example w h7) (r7, d7) ->
    t = prologue ++ dm ++ d7 ->
    script_parts w r7 t.

(** the trace of a run, from what its parts emitted *)
Definition run_trace (d1 d2 d3 d4 d5 fin d7 : Trace) : Trace :=
  prologue ++ banner ++ d1 ++ d2 ++ d3 ++ d4 ++ d5 ++ fin ++ d7.

(** a part that is reached runs, a part behind an uncaught exception does
    not: it emits nothing and the exception goes on *)
Definition slot (ran : option Exn -> Trace -> Prop)
           (before_it after_it : option Exn) (d : Trace) : Prop :=
  match before_it with
  | None => ran after_it d
  | Some e => d = [] /\ after_it = Some e
  end.

(** the closing banner of [main] *)
Definition banner_ran (o : option Exn) (d : Trace) : Prop :=
  o = None /\ d = [EPrint 132 completed_text].

(** The shape of every run: its parts in order, each with the facts
    shown of it.  [o1], ..., [o7] tell how the run stood after each part:
    [None] when it goes on, [Some e] when it has ended with [e]. *)
Inductive script_run (w : World) : Res unit -> Trace -> Prop :=
| run_of o1 d1 o2 d2 o3 d3 o4 d4 o5 d5 o6 fin o7 d7 :
    example1_facts d1 -> example1_ran o1 d1 ->
    example2_facts d2 -> slot example2_ran o1 o2 d2 ->
    example3_facts d3 -> slot example3_ran o2 o3 d3 ->
    example4_facts d4 -> slot example4_ran o3 o4 d4 ->
    example5_facts d5 -> slot example5_ran o4 o5 d5 ->
    slot banner_ran o5 o6 fin ->
    pandas_facts d7 -> slot pandas_ran o6 o7 d7 ->
    main w prologue = (result o6, banner ++ d1 ++ d2 ++ d3 ++ d4 ++ d5 ++ fin) ->
    script_run w (result o7) (run_trace d1 d2 d3 d4 d5 fin d7).

(** every call that returned is the constructor's *)
Definition only_constructor_returned (t : Trace) : bool :=
  forallb (fun ev => match ev with
                     | ECall ln _ (Returns _) => ln =? 41
                     | _ => true
                     end) t.

(** a line of [t] prints exactly [s] *)
Definition prints_text (s : string) (t : Trace) : bool :=
  existsb (fun ev => match ev with
                     | EPrint _ s' => String.eqb s' s
                     | ECall _ _ _ => false
                     end) t.

(** ** Some behaviours of the library *)

Definition some_obj : PyObj := mkObj "[26.4, 27.9, 29.1]" true.

Definition no_key : Exn := mkExn "ValueError" true "API key required".

Definition refused : Exn := mkExn "ConnectionError" true "connection refused".

Definition no_model : Exn := mkExn "ValueError" true "unknown model".

(** the user presses Ctrl-C *)
Definition interrupt : Exn := mkExn "KeyboardInterrupt" false "".

(** the service answers every call *)
Definition w_up : World :=
  mkWorld (fun _ _ => Returns some_obj) "[100.3, 99.8]" "2024-02-19  198.2".

(** the constructor finds no API key *)
Definition w_no_key : World :=
  mkWorld (fun _ c => match c with
                      | CConstruct => Raises no_key
                      | _ => Returns some_obj
                      end) "[100.3, 99.8]" "2024-02-19  198.2".

(** nothing works: no key and no server *)
Definition w_nothing : World :=
  mkWorld (fun _ c => match c with
                      | CConstruct => Raises no_key
                      | _ => Raises refused
                      end) "[100.3, 99.8]" "2024-02-19  198.2".

(** the client object can be built but the server is down *)
Definition w_down : World :=
  mkWorld (fun _ c => match c with
                      | CConstruct => Returns some_obj
                      | _ => Raises refused
                      end) "[100.3, 99.8]" "2024-02-19  198.2".

(** the server does not serve the TOTO model *)
Definition w_no_toto : World :=
  mkWorld (fun _ c =>
             match predict_args c with
             | Some a =>
                 match model a with
                 | Some m => if String.eqb m "toto-open-base-1.0"
                             then Raises no_model else Returns some_obj
                 | None => Returns some_obj
                 end
             | None => Returns some_obj
             end) "[100.3, 99.8]" "2024-02-19  198.2".


(** the run is interrupted during the first request *)
Definition w_interrupted : World :=
  mkWorld (fun _ _ => Raises interrupt) "[100.3, 99.8]" "2024-02-19  198.2".

(** the run is interrupted during the request to the TOTO model *)
Definition w_toto_interrupted : World :=
  mkWorld (fun _ c =>
             match predict_args c with
             | Some a =>
                 match model a with
                 | Some m => if String.eqb m "toto-open-base-1.0"
                             then Raises interrupt else Returns some_obj
                 | None => Returns some_obj
                 end
             | None => Returns some_obj
             end) "[100.3, 99.8]" "2024-02-19  198.2".

(** ** Further observations, for the properties beyond the claims *)

(** [Q] holds of what each block emits, wherever and in whatever world it
    is run *)
Definition every_block (Q : Trace -> Prop) : Prop :=
  (forall w h, Q (snd (example1 w h))) /\
  (forall w h, Q (snd (example2 w h))) /\
  (forall w h c, Q (snd (example3 c w h))) /\
  (forall w h c, Q (snd (example4 c w h))) /\
  (forall w h c, Q (snd (example5 c w h))) /\
  (forall w h, Q (snd (pandas_example w h))).

(** [P prev ev] for every event [ev] of [t], [prev] being the event just
    before it *)
Fixpoint each_after (P : option Event -> Event -> Prop)
         (prev : option Event) (t : Trace) : Prop :=
  match t with
  | [] => True
  | ev :: rest => P prev ev /\ each_after P (Some ev) rest
  end.

(** the lines of the [print]s inside [except] clauses *)
Definition is_handler_line (ln : nat) : bool :=
  existsb (Nat.eqb ln) [35; 63; 85; 111; 114; 130; 171].

(** a print of a handler comes right after a raise it guards and carries
    its message *)
Definition failure_justified (prev : option Event) (ev : Event) : Prop :=
  match ev with
  | EPrint hl s =>
      is_handler_line hl = true ->
      match prev with
      | Some (ECall ln _ (Raises e)) =>
          exists pfx, handler_of ln = Some (hl, pfx) /\ s = pfx +++ exn_msg e
      | _ => False
      end
  | ECall _ _ _ => True
  end.

(** the lines that print a forecast *)
Definition is_forecast_line (ln : nat) : bool :=
  existsb (Nat.eqb ln) [31; 50; 58; 82; 100; 109; 163].

(** a forecast line comes right after the read of [.forecast] on the same
    line and shows the value that read returned *)
Definition forecast_justified (prev : option Event) (ev : Event) : Prop :=
  match ev with
  | EPrint ln s =>
      is_forecast_line ln = true ->
      match prev with
      | Some (ECall l (CGetAttr _ a) (Returns v)) =>
          l = ln /\ a = "forecast" /\ exists pfx, s = pfx +++ obj_repr v
      | _ => False
      end
  | ECall _ _ _ => True
  end.

Definition is_predict (c : Call) : bool :=
  match predict_args c with
  | Some _ => true
  | None => false
  end.

(** the object a call reads from or converts: the [response] variable *)
Definition read_target (c : Call) : option PyObj :=
  match c with
  | CGetAttr r _ => Some r
  | CToPandas r => Some r
  | _ => None
  end.

(** the value of the latest predict call that returned, [acc] if none *)
Fixpoint latest_response (acc : option PyObj) (t : Trace) : option PyObj :=
  match t with
  | [] => acc
  | ECall _ c (Returns v) :: rest =>
      latest_response (if is_predict c then Some v else acc) rest
  | _ :: rest => latest_response acc rest
  end.

(** every read is made on the latest response *)
Fixpoint reads_latest (acc : option PyObj) (t : Trace) : Prop :=
  match t with
  | [] => True
  | ECall ln c o :: rest =>
      (forall r, read_target c = Some r -> acc = Some r) /\
      reads_latest (latest_response acc [ECall ln c o]) rest
  | EPrint _ _ :: rest => reads_latest acc rest
  end.

(** the client a method is called on *)
Definition client_of (c : Call) : option PyObj :=
  match c with
  | CListModels x => Some x
  | CPredict x _ => Some x
  | CHealthCheck x => Some x
  | CGetModelInfo x _ => Some x
  | _ => None
  end.

(** every method call of [t] is made on a client in [allowed] *)
Fixpoint methods_on (allowed : PyObj -> Prop) (t : Trace) : Prop :=
  match t with
  | [] => True
  | ECall _ c _ :: rest =>
      (forall x, client_of c = Some x -> allowed x) /\ methods_on allowed rest
  | EPrint _ _ :: rest => methods_on allowed rest
  end.

Definition is_call (ev : Event) : bool :=
  match ev with
  | ECall _ _ _ => true
  | EPrint _ _ => false
  end.

Definition is_predict_call (ev : Event) : bool :=
  match ev with
  | ECall _ c _ => is_predict c
  | EPrint _ _ => false
  end.

(** how many calls into the library a trace holds *)
Definition count_calls (t : Trace) : nat := length (filter is_call t).

(** how many forecast requests a trace holds *)
Definition count_predicts (t : Trace) : nat := length (filter is_predict_call t).

(** the last two events *)
Definition last_two (t : Trace) : option (Event * Event) :=
  match rev t with
  | b :: a :: _ => Some (a, b)
  | _ => None
  end.

(** the raise of an instance of [Exception] from a line other than 41 is
    the last event but one of [d], the last one being the print of its
    handler *)
Definition raise_ends (d : Trace) : Prop :=
  forall ln c e,
    In (ECall ln c (Raises e)) d -> ln <> 41 -> exn_is_exception e = true ->
    exists hl pfx,
      handler_of ln = Some (hl, pfx) /\
      last_two d = Some (ECall ln c (Raises e), EPrint hl (pfx +++ exn_msg e)).


(** the event just before the position that follows [pre], [prev] if
    [pre] is empty *)
Fixpoint before (prev : option Event) (pre : Trace) : option Event :=
  match pre with
  | [] => prev
  | ev :: rest => before (Some ev) rest
  end.

(** ** Running the blocks *)

#[local] Arguments String.append : simpl never.

(** case analysis on every answer of the library, every class test of a
    handler and every truth test met along a block *)
Ltac run_block :=
  repeat match goal with
  | |- context [respond ?w ?h ?c] =>
      let o := fresh "o" in
      destruct (respond w h c) as [o|o]; cbn [fst snd app]
  | H : exn_is_exception ?e = _ |- context [exn_is_exception ?e] =>
      rewrite H; cbn [fst snd app]
  | |- context [exn_is_exception ?e] =>
      let X := fresh "X" in
      destruct (exn_is_exception e) eqn:X; cbn [fst snd app]
  | |- context [obj_truthy ?v] =>
      let T := fresh "T" in
      destruct (obj_truthy v) eqn:T; cbn [fst snd app]
  end.

Ltac unfold_blocks :=
  unfold example1, example2, example3, example4, example5, pandas_example,
    bind, try_except, call, print, ret, when, ask;
  cbn [app fst snd].

(** compute, using what the class tests gave *)
Ltac compute_classes :=
  repeat (cbn;
          repeat match goal with
                 | H : exn_is_exception ?e = _ |- context [exn_is_exception ?e] =>
                     rewrite H
                 end).

Ltac settle :=
  compute_classes;
  repeat match goal with
         | |- _ /\ _ => split
         | |- True => exact I
         | |- _ = _ => reflexivity
         end.

Ltac find_forecast :=
  solve [repeat first [apply fr_here | apply fr_later]].

Ltac find_in :=
  cbn; solve [repeat first [left; reflexivity | right]].

Ltac spec_goal :=
  lazymatch goal with
  | |- block_ok _ _ _ _ => constructor; reflexivity
  | |- settled _ _ => settle
  | |- In _ _ => find_in
  | |- exists _, _ => eexists; spec_goal
  | |- _ /\ _ => split; spec_goal
  | |- _ = _ -> _ =>
      let H := fresh "H" in
      intro H; cbn in H; try discriminate H;
      first [find_forecast
            | split; reflexivity
            | reflexivity
            | left; reflexivity
            | right; reflexivity
            | spec_goal]
  | |- forall _ _, In _ _ -> _ =>
      let c0 := fresh "c" in
      let e0 := fresh "e" in
      let I := fresh "I" in
      let Y := fresh "Y" in
      intros c0 e0 I Y; cbn in I;
      repeat match type of I with _ \/ _ => destruct I as [I | I] end;
      try contradiction; try discriminate I;
      inversion I; subst; try congruence; compute_classes; reflexivity
  | |- _ = _ => reflexivity
  end.

Ltac prove_block :=
  unfold_blocks; run_block;
  unfold example1_facts, example1_ran, example2_facts, example2_ran,
    example3_facts, example3_ran, example4_facts, example4_ran,
    example5_facts, example5_ran, pandas_facts, pandas_ran, block_ran;
  cbn [outcome];
  repeat match goal with |- _ /\ _ => split end; spec_goal.

Lemma example1_runs (w : World) (h : Trace) :
  example1_facts (snd (example1 w h)) /\
  example1_ran (outcome (fst (example1 w h))) (snd (example1 w h)).
Proof. prove_block. Qed.

Lemma example2_runs (w : World) (h : Trace) :
  example2_facts (snd (example2 w h)) /\
  example2_ran (outcome (fst (example2 w h))) (snd (example2 w h)).
Proof. prove_block. Qed.

Lemma example3_runs (w : World) (h : Trace) (client : PyObj) :
  example3_facts (snd (example3 client w h)) /\
  example3_ran (outcome (fst (example3 client w h))) (snd (example3 client w h)).
Proof. prove_block. Qed.

Lemma example4_runs (w : World) (h : Trace) (client : PyObj) :
  example4_facts (snd (example4 client w h)) /\
  example4_ran (outcome (fst (example4 client w h))) (snd (example4 client w h)).
Proof. prove_block. Qed.

Lemma example5_runs (w : World) (h : Trace) (client : PyObj) :
  example5_facts (snd (example5 client w h)) /\
  example5_ran (outcome (fst (example5 client w h))) (snd (example5 client w h)).
Proof. prove_block. Qed.

Lemma pandas_example_runs (w : World) (h : Trace) :
  pandas_facts (snd (pandas_example w h)) /\
  pandas_ran (outcome (fst (pandas_example w h))) (snd (pandas_example w h)).
Proof. prove_block. Qed.

(** ** The parts of a run *)

Ltac close_follow := cbn [follows outcome]; first [eassumption | reflexivity].

Ltac close_main :=
  cbn [fst snd];
  eapply main_of;
  [ eassumption
  | close_follow
  | let v := fresh "v" in
    let H := fresh "H" in
    intros v H; first [discriminate H | inversion H; reflexivity]
  | close_follow
  | close_follow
  | close_follow
  | close_follow
  | unfold banner; cbn [app]; rewrite ?app_nil_r; reflexivity ].

Lemma main_has_parts (w : World) (h : Trace) :
  main_parts w h (fst (main w h)) (snd (main w h)).
Proof.
  unfold main, bind, print. cbn [app].
  match goal with |- context [example1 w ?h1] =>
    destruct (example1 w h1) as [[[]|e1] d1] eqn:E1 end; [| close_main].
  match goal with |- context [example2 w ?h2] =>
    destruct (example2 w h2) as [[v|e2] d2] eqn:E2 end; [| close_main].
  match goal with |- context [example3 v w ?h3] =>
    destruct (example3 v w h3) as [[[]|e3] d3] eqn:E3 end; [| close_main].
  match goal with |- context [example4 v w ?h4] =>
    destruct (example4 v w h4) as [[[]|e4] d4] eqn:E4 end; [| close_main].
  match goal with |- context [example5 v w ?h5] =>
    destruct (example5 v w h5) as [[[]|e5] d5] eqn:E5 end; close_main.
  Unshelve.
  all: first [exact [] | exact some_obj].
Qed.

Lemma script_has_parts (w : World) :
  script_parts w (script_result w) (script_trace w).
Proof.
  unfold script_result, script_trace, script, bind, print. cbn [app].
  change [EPrint 175 "Make sure the TSFM server is running on http://localhost:8000";
          EPrint 176 ""] with prologue.
  pose proof (main_has_parts w prologue) as P.
  destruct (main w prologue) as [[[]|e] dm] eqn:Em; cbn [fst snd] in P.
  - match goal with |- context [pandas_example w ?h7] =>
      destruct (pandas_example w h7) as [r7 d7] eqn:E7 end.
    cbn [fst snd].
    eapply script_of; [exact P | exact Em | close_follow |].
    unfold prologue. cbn [app]. reflexivity.
  - cbn [fst snd].
    eapply script_of; [exact P | exact Em | close_follow |].
    unfold prologue. cbn [app]. rewrite ?app_nil_r. reflexivity.
  Unshelve. exact [].
Qed.

Lemma idle_facts :
  example2_facts [] /\ example3_facts [] /\ example4_facts [] /\
  example5_facts [] /\ pandas_facts [].
Proof.
  unfold example2_facts, example3_facts, example4_facts, example5_facts,
    pandas_facts.
  repeat match goal with |- _ /\ _ => split end;
    try (constructor; reflexivity); try reflexivity;
    try (cbn; intros H; discriminate H).
Qed.

(** what follows a part that ended is an idle slot, what follows a part
    that went on is a run of the block *)
Lemma follows_slot {A : Type} (facts : Trace -> Prop)
      (ran : option Exn -> Trace -> Prop) (o : option Exn)
      (run : Res A * Trace) (r : Res A) (d : Trace) :
  facts (snd run) -> ran (outcome (fst run)) (snd run) -> facts [] ->
  follows o run (r, d) ->
  facts d /\ slot ran o (outcome r) d.
Proof.
  intros F R N E. destruct o as [e|]; cbn in E |- *.
  - inversion E. subst. auto.
  - rewrite E in F, R. auto.
Qed.

Lemma script_runs (w : World) : script_run w (script_result w) (script_trace w).
Proof.
  destruct (script_has_parts w) as [rm dm h7 r7 d7 t P Em E7 ->].
  destruct P as [h1 h2 h3 h4 h5 cl r1 d1 r2 d2 r3 d3 r4 d4 r5 d5 r6 fin dm
                   E1 E2 Ecl E3 E4 E5 E6 ->].
  destruct idle_facts as (N2 & N3 & N4 & N5 & N7).
  destruct (example1_runs w h1) as [F1 R1]. rewrite E1 in F1, R1.
  cbn [fst snd] in F1, R1.
  destruct (follows_slot example2_facts example2_ran _ _ _ _
              (proj1 (example2_runs w h2)) (proj2 (example2_runs w h2)) N2 E2)
    as [F2 R2].
  destruct (follows_slot example3_facts example3_ran _ _ _ _
              (proj1 (example3_runs w h3 cl)) (proj2 (example3_runs w h3 cl)) N3 E3)
    as [F3 R3].
  destruct (follows_slot example4_facts example4_ran _ _ _ _
              (proj1 (example4_runs w h4 cl)) (proj2 (example4_runs w h4 cl)) N4 E4)
    as [F4 R4].
  destruct (follows_slot example5_facts example5_ran _ _ _ _
              (proj1 (example5_runs w h5 cl)) (proj2 (example5_runs w h5 cl)) N5 E5)
    as [F5 R5].
  destruct (follows_slot pandas_facts pandas_ran _ _ _ _
              (proj1 (pandas_example_runs w h7)) (proj2 (pandas_example_runs w h7))
              N7 E7)
    as [F7 R7].
  assert (slot banner_ran (outcome r5) (outcome r6) fin) as R6.
  { destruct (outcome r5) as [e|]; cbn in E6 |- *.
    - inversion E6. auto.
    - inversion E6. split; reflexivity. }
  assert (forall (r : Res unit), r = result (outcome r)) as Q
    by (intros [[]|e]; reflexivity).
  rewrite (Q r7). rewrite (Q r6) in Em.
  replace (prologue ++ (banner ++ d1 ++ d2 ++ d3 ++ d4 ++ d5 ++ fin) ++ d7)
    with (run_trace d1 d2 d3 d4 d5 fin d7)
    by (unfold run_trace; rewrite <- !app_assoc; reflexivity).
  eapply run_of; eassumption.
Qed.

(** ** Facts about traces *)


Lemma in_stage (k : nat) (d : Trace) (ev : Event) :
  all_in_stage k d = true -> In ev d -> stage_of ev = k.
Proof.
  unfold all_in_stage. rewrite forallb_forall. intros H I.
  apply Nat.eqb_eq. apply H. exact I.
Qed.

Lemma events_of_app (k : nat) (a b : Trace) :
  events_of k (a ++ b) = events_of k a ++ events_of k b.
Proof. apply filter_app. Qed.

Lemma events_of_stage (j k : nat) (d : Trace) :
  all_in_stage j d = true -> events_of k d = if j =? k then d else [].
Proof.
  unfold events_of, all_in_stage.
  induction d as [|ev d IH]; cbn.
  - destruct (j =? k); reflexivity.
  - intros H. apply andb_true_iff in H. destruct H as [Hev Hd].
    apply Nat.eqb_eq in Hev. rewrite Hev, (IH Hd).
    destruct (j =? k); reflexivity.
Qed.

(** an observation that only fires in stage [k] can be made on the events
    of stage [k] alone *)
Lemma locate (p : Event -> bool) (k : nat) (t : Trace) :
  (forall ev, p ev = true -> stage_of ev = k) ->
  existsb p t = existsb p (events_of k t).
Proof.
  intros Hp. unfold events_of.
  induction t as [|ev t IH]; cbn; [reflexivity|].
  destruct (stage_of ev =? k) eqn:E; cbn; rewrite IH; [reflexivity|].
  destruct (p ev) eqn:P; [|reflexivity].
  apply Hp in P. apply Nat.eqb_neq in E. contradiction.
Qed.

Lemma called_at_locate (ln : nat) (t : Trace) :
  called_at ln t = called_at ln (events_of (stage ln) t).
Proof.
  apply locate. intros [l s|l c o]; cbn; [discriminate|].
  intros E. apply Nat.eqb_eq in E. subst. reflexivity.
Qed.

Lemma raised_at_locate (ln : nat) (t : Trace) :
  raised_at ln t = raised_at ln (events_of (stage ln) t).
Proof.
  apply locate. intros [l s|l c [v|e]]; cbn; try discriminate.
  intros E. apply Nat.eqb_eq in E. subst. reflexivity.
Qed.

Lemma printed_at_locate (ln : nat) (t : Trace) :
  printed_at ln t = printed_at ln (events_of (stage ln) t).
Proof.
  apply locate. intros [l s|l c o]; cbn; [|discriminate].
  intros E. apply Nat.eqb_eq in E. subst. reflexivity.
Qed.

Lemma in_events_of (k : nat) (t : Trace) (ev : Event) :
  In ev (events_of k t) -> In ev t.
Proof. unfold events_of. intros H. apply filter_In in H. tauto. Qed.

Lemma in_events_of_stage (k : nat) (t : Trace) (ev : Event) :
  In ev t -> stage_of ev = k -> In ev (events_of k t).
Proof.
  intros I E. unfold events_of. apply filter_In. split; [exact I|].
  apply Nat.eqb_eq. exact E.
Qed.

Lemma stages_ascend_weaken (lo lo' : nat) (t : Trace) :
  stages_ascend lo t = true -> lo' <= lo -> stages_ascend lo' t = true.
Proof.
  destruct t as [|ev t]; cbn; [reflexivity|].
  intros H L. apply andb_true_iff in H. destruct H as [H1 H2].
  apply Nat.leb_le in H1. rewrite H2, andb_true_r. apply Nat.leb_le. lia.
Qed.

Lemma stages_ascend_app (lo k : nat) (a b : Trace) :
  all_in_stage k a = true -> lo <= k -> stages_ascend k b = true ->
  stages_ascend lo (a ++ b) = true.
Proof.
  revert lo. induction a as [|ev a IH]; cbn; intros lo Ha L Hb.
  - eapply stages_ascend_weaken; eassumption.
  - apply andb_true_iff in Ha. destruct Ha as [Hev Ha].
    apply Nat.eqb_eq in Hev. rewrite Hev.
    apply andb_true_iff. split; [apply Nat.leb_le; exact L|].
    apply IH; auto.
Qed.

Lemma stages_ascend_lower (lo : nat) (t : Trace) (ev : Event) :
  stages_ascend lo t = true -> In ev t -> lo <= stage_of ev.
Proof.
  revert lo. induction t as [|x t IH]; cbn; intros lo H I; [contradiction|].
  apply andb_true_iff in H. destruct H as [H1 H2]. apply Nat.leb_le in H1.
  destruct I as [->|I]; [exact H1|].
  specialize (IH _ H2 I). lia.
Qed.

Lemma stages_ascend_ordered (lo : nat) (pre mid post : Trace) (a b : Event) :
  stages_ascend lo (pre ++ a :: mid ++ b :: post) = true ->
  stage_of a <= stage_of b.
Proof.
  revert lo. induction pre as [|x pre IH]; cbn; intros lo H;
    apply andb_true_iff in H; destruct H as [_ H].
  - eapply stages_ascend_lower; [exact H|].
    apply in_or_app. right. left. reflexivity.
  - eapply IH. exact H.
Qed.

(** *** call lines *)

Lemma calls_ascend_weaken (lo lo' hi : nat) (t : Trace) :
  calls_ascend lo hi t = true -> lo' <= lo -> calls_ascend lo' hi t = true.
Proof.
  induction t as [|[l s|l c o] t IH]; cbn; intros H L.
  - apply Nat.leb_le in H. apply Nat.leb_le. lia.
  - auto.
  - apply andb_true_iff in H. destruct H as [H1 H2].
    apply Nat.ltb_lt in H1. rewrite H2, andb_true_r. apply Nat.ltb_lt. lia.
Qed.

Lemma calls_ascend_app (lo mid hi : nat) (a b : Trace) :
  calls_ascend lo mid a = true -> calls_ascend mid hi b = true ->
  calls_ascend lo hi (a ++ b) = true.
Proof.
  revert lo. induction a as [|[l s|l c o] a IH]; cbn; intros lo Ha Hb.
  - apply Nat.leb_le in Ha. eapply calls_ascend_weaken; eassumption.
  - auto.
  - apply andb_true_iff in Ha. destruct Ha as [H1 H2].
    rewrite H1. cbn. auto.
Qed.

Lemma calls_ascend_above (lo hi ln : nat) (t : Trace) :
  calls_ascend lo hi t = true -> ln <= lo -> called_at ln t = false.
Proof.
  revert lo. induction t as [|[l s|l c o] t IH]; cbn; intros lo H L.
  - reflexivity.
  - eauto.
  - apply andb_true_iff in H. destruct H as [H1 H2]. apply Nat.ltb_lt in H1.
    replace (l =? ln) with false by (symmetry; apply Nat.eqb_neq; lia).
    cbn. apply (IH l); [exact H2 | lia].
Qed.

(** a line that called the library is not called again *)
Lemma calls_ascend_once (lo hi ln : nat) (c : Call) (o : Outcome)
      (pre post : Trace) :
  calls_ascend lo hi (pre ++ ECall ln c o :: post) = true ->
  called_at ln post = false.
Proof.
  revert lo. induction pre as [|[l s|l c' o'] pre IH]; cbn; intros lo H.
  - apply andb_true_iff in H. destruct H as [_ H].
    eapply calls_ascend_above; [exact H | lia].
  - eauto.
  - apply andb_true_iff in H. destruct H as [_ H]. eauto.
Qed.

Lemma calls_ascend_lower (lo hi : nat) (t : Trace) (ln : nat) (c : Call)
      (o : Outcome) :
  calls_ascend lo hi t = true -> In (ECall ln c o) t -> lo < ln.
Proof.
  revert lo. induction t as [|[l s|l c' o'] t IH]; cbn; intros lo H I.
  - contradiction.
  - destruct I as [I | I]; [discriminate I | eauto].
  - apply andb_true_iff in H. destruct H as [H1 H2]. apply Nat.ltb_lt in H1.
    destruct I as [I | I].
    + inversion I. subst. exact H1.
    + specialize (IH _ H2 I). lia.
Qed.

Lemma calls_ascend_ordered (lo hi : nat) (pre mid post : Trace) (l1 l2 : nat)
      (c1 c2 : Call) (o1 o2 : Outcome) :
  calls_ascend lo hi (pre ++ ECall l1 c1 o1 :: mid ++ ECall l2 c2 o2 :: post)
  = true ->
  l1 < l2.
Proof.
  revert lo. induction pre as [|[l s|l c o] pre IH]; cbn; intros lo A.
  - apply andb_true_iff in A. destruct A as [_ A].
    eapply calls_ascend_lower; [exact A |].
    apply in_or_app. right. left. reflexivity.
  - exact (IH _ A).
  - apply andb_true_iff in A. destruct A as [_ A]. exact (IH _ A).
Qed.

Lemma forallb_at {A : Type} (p : A -> bool) (pre post : list A) (x : A) :
  forallb p (pre ++ x :: post) = true -> p x = true.
Proof.
  rewrite forallb_app. cbn. intros H.
  apply andb_true_iff in H. destruct H as [_ H].
  apply andb_true_iff in H. tauto.
Qed.

Lemma raised_at_here (ln : nat) (c : Call) (e : Exn) (pre post : Trace) :
  raised_at ln (pre ++ ECall ln c (Raises e) :: post) = true.
Proof.
  unfold raised_at. rewrite existsb_app. cbn. rewrite Nat.eqb_refl.
  apply orb_true_r.
Qed.

(** *** handlers *)

Lemma handler_prefix (ln hl : nat) (pfx : string) :
  handler_of ln = Some (hl, pfx) -> pfx = error_prefix \/ pfx = toto_prefix.
Proof.
  unfold handler_of. intros H.
  repeat match type of H with
         | context [if ?b then _ else _] => destruct b
         end; inversion H; auto.
Qed.

(** the TOTO handler serves lines 104-109 and no other line *)
Lemma handler_prefix_by_line (ln hl : nat) (pfx : string) :
  handler_of ln = Some (hl, pfx) ->
  pfx = if between 104 109 ln then toto_prefix else error_prefix.
Proof.
  unfold handler_of. destruct (between 104 109 ln) eqn:T.
  - unfold between in T. apply andb_true_iff in T. destruct T as [T1 T2].
    apply Nat.leb_le in T1, T2.
    assert (between 27 33 ln = false) as ->
      by (unfold between; apply andb_false_iff; right; apply Nat.leb_gt; lia).
    assert (between 44 61 ln = false) as ->
      by (unfold between; apply andb_false_iff; right; apply Nat.leb_gt; lia).
    assert (between 70 83 ln = false) as ->
      by (unfold between; apply andb_false_iff; right; apply Nat.leb_gt; lia).
    intros H. inversion H. reflexivity.
  - intros H.
    repeat match type of H with
           | context [if ?b then _ else _] => destruct b
           end; inversion H; reflexivity.
Qed.

Lemma stage_mono (a b : nat) : a <= b -> b < 174 -> stage a <= stage b.
Proof.
  intros L U. unfold stage.
  repeat match goal with
         | |- context [?x <? ?y] => destruct (Nat.ltb_spec x y); try lia
         end.
Qed.

Lemma stage_between (lo hi ln k : nat) :
  between lo hi ln = true -> stage lo = k -> stage hi = k -> hi < 174 ->
  stage ln = k.
Proof.
  unfold between. intros B Hlo Hhi U. apply andb_true_iff in B.
  destruct B as [B1 B2]. apply Nat.leb_le in B1, B2.
  pose proof (stage_mono lo ln B1 ltac:(lia)).
  pose proof (stage_mono ln hi B2 U). lia.
Qed.

(** a handler prints in the stage of the lines it guards *)
Lemma handler_stage (ln hl : nat) (pfx : string) :
  handler_of ln = Some (hl, pfx) -> stage hl = stage ln.
Proof.
  unfold handler_of. intros H.
  repeat match type of H with
         | context [if between ?lo ?hi ln then _ else _] =>
             let B := fresh "B" in
             destruct (between lo hi ln) eqn:B;
             [ inversion H; subst; symmetry;
               apply (stage_between lo hi ln _ B); [reflexivity | reflexivity | lia]
             | ]
         end.
  discriminate H.
Qed.

(** *** raises *)

Lemma reported_next_app (hl : nat) (pfx : string) (e : Exn) (a b : Trace) :
  reported_next hl pfx e a -> reported_next hl pfx e (a ++ b).
Proof. destruct a as [|[l s|l c o] a']; cbn; tauto. Qed.

Lemma settled_app (a b : Trace) (r : option Exn) :
  settled a None -> settled b r -> settled (a ++ b) r.
Proof.
  induction a as [|ev a IH]; intros Ha Hb; [exact Hb |].
  destruct ev as [l s|l c [v|e]]; cbn in *; auto.
  destruct (handler_of l) as [[hl pfx]|].
  - destruct (exn_is_exception e).
    + destruct Ha as [Hr Ha]. split; [apply reported_next_app; exact Hr | auto].
    + destruct Ha as [_ Ha]. discriminate Ha.
  - destruct Ha as [_ Ha]. discriminate Ha.
Qed.

(** what becomes of a raise of a settled trace *)
Lemma settled_at (pre post : Trace) (ln : nat) (c : Call) (e : Exn)
      (r : option Exn) :
  settled (pre ++ ECall ln c (Raises e) :: post) r ->
  match handler_of ln with
  | Some (hl, pfx) =>
      if exn_is_exception e
      then exists post', post = EPrint hl (pfx +++ exn_msg e) :: post'
      else post = [] /\ r = Some e
  | None => post = [] /\ r = Some e
  end.
Proof.
  induction pre as [|ev pre IH]; cbn.
  - destruct (handler_of ln) as [[hl pfx]|]; [| tauto].
    destruct (exn_is_exception e); [| tauto].
    intros [Hr _]. destruct post as [|[l s|l c' o] post']; try contradiction.
    destruct Hr as [-> ->]. eauto.
  - destruct ev as [l s|l c' [v|e']]; auto.
    destruct (handler_of l) as [[hl pfx]|].
    + destruct (exn_is_exception e').
      * intros [_ H]. exact (IH H).
      * intros [H _]. destruct pre; discriminate H.
    + intros [H _]. destruct pre; discriminate H.
Qed.

(** a settled trace ends with an exception exactly when it holds an
    uncaught raise *)
Lemma settled_uncaught (t : Trace) (r : option Exn) :
  settled t r -> any_uncaught t = is_some r.
Proof.
  induction t as [|ev t IH]; cbn.
  - intros ->. reflexivity.
  - destruct ev as [l s|l c [v|e]]; cbn; auto.
    destruct (handler_of l) as [[hl pfx]|].
    + destruct (exn_is_exception e); cbn.
      * intros [_ H]. auto.
      * intros [_ ->]. reflexivity.
    + intros [_ ->]. reflexivity.
Qed.

Lemma any_uncaught_app (a b : Trace) :
  any_uncaught (a ++ b) = any_uncaught a || any_uncaught b.
Proof. apply existsb_app. Qed.

Lemma stopped_before_app (k : nat) (a b : Trace) :
  stopped_before k (a ++ b) = stopped_before k a || stopped_before k b.
Proof. apply existsb_app. Qed.

Lemma stopped_before_stage (j k : nat) (d : Trace) :
  all_in_stage j d = true ->
  stopped_before k d = (j <? k) && any_uncaught d.
Proof.
  unfold stopped_before, any_uncaught, all_in_stage.
  induction d as [|ev d IH]; cbn [existsb forallb]; intros H.
  - rewrite andb_false_r. reflexivity.
  - apply andb_true_iff in H. destruct H as [Hev Hd].
    apply Nat.eqb_eq in Hev. rewrite Hev, (IH Hd).
    destruct (j <? k), (uncaught ev); reflexivity.
Qed.

(** an uncaught raise comes from the constructor or is no instance of
    [Exception] *)
Lemma uncaught_kinds (t : Trace) :
  forallb guarded_site t = true ->
  raised_at 41 t = false ->
  (forall ln c e, In (ECall ln c (Raises e)) t -> exn_is_exception e = true) ->
  any_uncaught t = false.
Proof.
  unfold any_uncaught, raised_at.
  induction t as [|ev t IH]; cbn [existsb forallb]; intros G R E;
    [reflexivity |].
  apply andb_true_iff in G. destruct G as [G1 G2].
  apply orb_false_iff in R. destruct R as [R1 R2].
  rewrite (IH G2 R2) by (intros ln c e I; eapply E; right; exact I).
  rewrite orb_false_r.
  destruct ev as [l s|l c [v|e]]; cbn in *; try reflexivity.
  destruct (handler_of l) as [[hl pfx]|].
  - rewrite (E l c e) by (left; reflexivity). reflexivity.
  - congruence.
Qed.

(** ** Facts about every run of the script *)

Lemma outcome_result (o : option Exn) : outcome (result o) = o.
Proof. destruct o; reflexivity. Qed.

Lemma block_ran_settled (hl : nat) (heading : string) (first : nat)
      (o : option Exn) (d : Trace) :
  block_ran hl heading first o d -> settled d o.
Proof. intros H. exact (proj1 H). Qed.

Lemma example2_ran_settled (o : option Exn) (d : Trace) :
  example2_ran o d -> settled d o.
Proof. intros H. exact (proj1 (proj1 H)). Qed.

Lemma example5_ran_settled (o : option Exn) (d : Trace) :
  example5_ran o d -> settled d o.
Proof. intros H. exact (proj1 H). Qed.

Lemma banner_ran_settled (o : option Exn) (d : Trace) :
  banner_ran o d -> settled d o.
Proof. intros [-> ->]. reflexivity. Qed.

Lemma slot_settled (ran : option Exn -> Trace -> Prop) (o o' : option Exn)
      (acc d : Trace) :
  (forall o d, ran o d -> settled d o) ->
  settled acc o -> slot ran o o' d -> settled (acc ++ d) o'.
Proof.
  intros S A H. destruct o as [e|]; cbn in H.
  - destruct H as [-> ->]. rewrite app_nil_r. exact A.
  - apply settled_app; auto.
Qed.

Lemma slot_stop (ran : option Exn -> Trace -> Prop) (o o' : option Exn)
      (d : Trace) :
  (forall o d, ran o d -> settled d o) ->
  slot ran o o' d -> is_some o' = is_some o || any_uncaught d.
Proof.
  intros S H. destruct o as [e|]; cbn in H |- *.
  - destruct H as [-> ->]. reflexivity.
  - symmetry. apply settled_uncaught. auto.
Qed.

(** the closing banner is printed exactly when [main] gets to its end *)
Lemma banner_slot (o o' : option Exn) (fin : Trace) :
  slot banner_ran o o' fin ->
  o' = o /\ fin = (if is_some o then [] else [EPrint 132 completed_text]).
Proof.
  destruct o as [e|]; cbn.
  - intros [-> ->]. auto.
  - intros [-> ->]. auto.
Qed.

Lemma banner_slot_stage (o o' : option Exn) (fin : Trace) :
  slot banner_ran o o' fin -> all_in_stage 6 fin = true.
Proof.
  intros H. destruct (banner_slot _ _ _ H) as [_ ->].
  destruct (is_some o); reflexivity.
Qed.

(** the two shapes of the run in world [w] folded in one: every part with
    its facts, parts behind an uncaught raise being empty *)
Ltac run_cases w :=
  let R := fresh "R" in
  pose proof (script_runs w) as R;
  remember (script_result w) as r eqn:Er;
  remember (script_trace w) as t eqn:Et;
  destruct R as [o1 d1 o2 d2 o3 d3 o4 d4 o5 d5 o6 fin o7 d7
                   F1 R1 F2 R2 F3 R3 F4 R4 F5 R5 R6 F7 R7 Em].

Ltac block_facts :=
  match goal with
  | F1 : example1_facts ?d1, F2 : example2_facts ?d2, F3 : example3_facts ?d3,
    F4 : example4_facts ?d4, F5 : example5_facts ?d5, F7 : pandas_facts ?d7,
    R6 : slot banner_ran _ _ ?fin |- _ =>
      let A6 := fresh "A6" in
      pose proof (banner_slot_stage _ _ _ R6) as A6;
      destruct F1 as [A1 C1 P1 K1 G1];
      destruct (proj1 F2) as [A2 C2 P2 K2 G2];
      destruct F3 as [A3 C3 P3 K3 G3];
      destruct (proj1 F4) as [A4 C4 P4 K4 G4];
      destruct (proj1 F5) as [A5 C5 P5 K5 G5];
      destruct F7 as [A7 C7 P7 K7 G7]
  end.

Lemma run_settled (w : World) (r : Res unit) (t : Trace) :
  script_run w r t -> settled t (outcome r).
Proof.
  intros R.
  destruct R as [o1 d1 o2 d2 o3 d3 o4 d4 o5 d5 o6 fin o7 d7
                   F1 R1 F2 R2 F3 R3 F4 R4 F5 R5 R6 F7 R7 Em].
  rewrite outcome_result.
  assert (settled ((prologue ++ banner) ++ d1) o1) as S1
    by (apply settled_app; [reflexivity | exact (proj1 R1)]).
  pose proof (slot_settled _ _ _ _ _ example2_ran_settled S1 R2) as S2.
  pose proof (slot_settled _ _ _ _ _ (block_ran_settled _ _ _) S2 R3) as S3.
  pose proof (slot_settled _ _ _ _ _ (block_ran_settled _ _ _) S3 R4) as S4.
  pose proof (slot_settled _ _ _ _ _ example5_ran_settled S4 R5) as S5.
  pose proof (slot_settled _ _ _ _ _ banner_ran_settled S5 R6) as S6.
  pose proof (slot_settled _ _ _ _ _ (block_ran_settled _ _ _) S6 R7) as S7.
  unfold run_trace. rewrite <- !app_assoc in S7. exact S7.
Qed.

Lemma run_stages (w : World) (r : Res unit) (t : Trace) :
  script_run w r t -> stages_ascend 0 t = true.
Proof.
  intros R.
  destruct R as [o1 d1 o2 d2 o3 d3 o4 d4 o5 d5 o6 fin o7 d7
                   F1 R1 F2 R2 F3 R3 F4 R4 F5 R5 R6 F7 R7 Em].
  block_facts. unfold run_trace.
  apply (stages_ascend_app 0 0); [reflexivity | lia |].
  apply (stages_ascend_app 0 0); [reflexivity | lia |].
  apply (stages_ascend_app 0 1); [assumption | lia |].
  apply (stages_ascend_app 1 2); [assumption | lia |].
  apply (stages_ascend_app 2 3); [assumption | lia |].
  apply (stages_ascend_app 3 4); [assumption | lia |].
  apply (stages_ascend_app 4 5); [assumption | lia |].
  apply (stages_ascend_app 5 6); [assumption | lia |].
  rewrite <- (app_nil_r d7).
  apply (stages_ascend_app 6 7); [assumption | lia |].
  reflexivity.
Qed.

Lemma run_calls (w : World) (r : Res unit) (t : Trace) :
  script_run w r t -> calls_ascend 0 171 t = true.
Proof.
  intros R.
  destruct R as [o1 d1 o2 d2 o3 d3 o4 d4 o5 d5 o6 fin o7 d7
                   F1 R1 F2 R2 F3 R3 F4 R4 F5 R5 R6 F7 R7 Em].
  block_facts. unfold run_trace.
  assert (calls_ascend 130 130 fin = true) as C6
    by (destruct (banner_slot _ _ _ R6) as [_ ->];
        destruct (is_some o5); reflexivity).
  apply (calls_ascend_app 0 0); [reflexivity |].
  apply (calls_ascend_app 0 0); [reflexivity |].
  apply (calls_ascend_app 0 35); [assumption |].
  apply (calls_ascend_app 35 63); [assumption |].
  apply (calls_ascend_app 63 85); [assumption |].
  apply (calls_ascend_app 85 114); [assumption |].
  apply (calls_ascend_app 114 130); [assumption |].
  apply (calls_ascend_app 130 130); assumption.
Qed.

Lemma run_sites (w : World) (r : Res unit) (t : Trace) :
  script_run w r t ->
  forallb predict_site_ok t = true /\
  forallb construct_site_ok t = true /\
  forallb guarded_site t = true.
Proof.
  intros R.
  destruct R as [o1 d1 o2 d2 o3 d3 o4 d4 o5 d5 o6 fin o7 d7
                   F1 R1 F2 R2 F3 R3 F4 R4 F5 R5 R6 F7 R7 Em].
  block_facts. unfold run_trace.
  destruct (banner_slot _ _ _ R6) as [_ ->].
  rewrite !forallb_app, P1, P2, P3, P4, P5, P7, K1, K2, K3, K4, K5, K7,
    G1, G2, G3, G4, G5, G7.
  destruct (is_some o5); repeat split; reflexivity.
Qed.

(** the events of each stage are what the part of that stage emitted *)
Lemma run_events (d1 d2 d3 d4 d5 fin d7 : Trace) :
  all_in_stage 1 d1 = true -> all_in_stage 2 d2 = true ->
  all_in_stage 3 d3 = true -> all_in_stage 4 d4 = true ->
  all_in_stage 5 d5 = true -> all_in_stage 6 fin = true ->
  all_in_stage 7 d7 = true ->
  forall t, t = run_trace d1 d2 d3 d4 d5 fin d7 ->
  events_of 1 t = d1 /\ events_of 2 t = d2 /\ events_of 3 t = d3 /\
  events_of 4 t = d4 /\ events_of 5 t = d5 /\ events_of 6 t = fin /\
  events_of 7 t = d7.
Proof.
  intros A1 A2 A3 A4 A5 A6 A7 t ->. unfold run_trace.
  rewrite !events_of_app,
    !(events_of_stage 1 _ d1 A1), !(events_of_stage 2 _ d2 A2),
    !(events_of_stage 3 _ d3 A3), !(events_of_stage 4 _ d4 A4),
    !(events_of_stage 5 _ d5 A5), !(events_of_stage 6 _ fin A6),
    !(events_of_stage 7 _ d7 A7).
  cbn. rewrite ?app_nil_r. repeat split; reflexivity.
Qed.

(** how the run stood before each part, read off the trace *)
Lemma run_stops (t : Trace) :
  forall o1 d1 o2 d2 o3 d3 o4 d4 o5 d5 o6 fin o7 d7,
    example1_facts d1 -> example1_ran o1 d1 ->
    example2_facts d2 -> slot example2_ran o1 o2 d2 ->
    example3_facts d3 -> slot example3_ran o2 o3 d3 ->
    example4_facts d4 -> slot example4_ran o3 o4 d4 ->
    example5_facts d5 -> slot example5_ran o4 o5 d5 ->
    slot banner_ran o5 o6 fin ->
    pandas_facts d7 -> slot pandas_ran o6 o7 d7 ->
    t = run_trace d1 d2 d3 d4 d5 fin d7 ->
    stopped_before 2 t = is_some o1 /\ stopped_before 3 t = is_some o2 /\
    stopped_before 4 t = is_some o3 /\ stopped_before 5 t = is_some o4 /\
    stopped_before 7 t = is_some o6 /\ any_uncaught t = is_some o7.
Proof.
  intros o1 d1 o2 d2 o3 d3 o4 d4 o5 d5 o6 fin o7 d7
         F1 R1 F2 R2 F3 R3 F4 R4 F5 R5 R6 F7 R7 ->.
  pose proof (settled_uncaught _ _ (proj1 R1)) as U1.
  pose proof (slot_stop _ _ _ _ example2_ran_settled R2) as U2.
  pose proof (slot_stop _ _ _ _ (block_ran_settled _ _ _) R3) as U3.
  pose proof (slot_stop _ _ _ _ (block_ran_settled _ _ _) R4) as U4.
  pose proof (slot_stop _ _ _ _ example5_ran_settled R5) as U5.
  pose proof (slot_stop _ _ _ _ banner_ran_settled R6) as U6.
  pose proof (slot_stop _ _ _ _ (block_ran_settled _ _ _) R7) as U7.
  assert (any_uncaught fin = false) as Z
    by (destruct (banner_slot _ _ _ R6) as [_ ->];
        destruct (is_some o5); reflexivity).
  block_facts. unfold run_trace.
  rewrite !stopped_before_app, !any_uncaught_app,
    !(stopped_before_stage 1 _ d1 A1), !(stopped_before_stage 2 _ d2 A2),
    !(stopped_before_stage 3 _ d3 A3), !(stopped_before_stage 4 _ d4 A4),
    !(stopped_before_stage 5 _ d5 A5), !(stopped_before_stage 6 _ fin A6),
    !(stopped_before_stage 7 _ d7 A7).
  rewrite U7, U6, U5, U4, U3, U2, <- U1, Z.
  change (any_uncaught prologue) with false.
  change (any_uncaught banner) with false.
  cbn.
  destruct (any_uncaught d1), (any_uncaught d2), (any_uncaught d3),
    (any_uncaught d4), (any_uncaught d5), (any_uncaught d7);
    repeat split; reflexivity.
Qed.

Lemma script_settled (w : World) :
  settled (script_trace w) (outcome (script_result w)).
Proof. apply (run_settled w). apply script_runs. Qed.

Lemma script_stages_ascend (w : World) : stages_ascend 0 (script_trace w) = true.
Proof. apply (run_stages w (script_result w)). apply script_runs. Qed.

Lemma script_calls_ascend (w : World) : calls_ascend 0 171 (script_trace w) = true.
Proof. apply (run_calls w (script_result w)). apply script_runs. Qed.

Lemma script_sites (w : World) :
  forallb predict_site_ok (script_trace w) = true /\
  forallb construct_site_ok (script_trace w) = true /\
  forallb guarded_site (script_trace w) = true.
Proof. apply (run_sites w (script_result w)). apply script_runs. Qed.

(** the run ends with an exception exactly when its trace holds an
    uncaught raise *)
Lemma script_ends (w : World) :
  any_uncaught (script_trace w) = is_some (outcome (script_result w)).
Proof. apply settled_uncaught. apply script_settled. Qed.

Lemma outcome_some {A : Type} (r : Res A) (e : Exn) :
  outcome r = Some e -> r = Raise e.
Proof. destruct r; cbn; congruence. Qed.

(** the constructor is the call of line 41, in every run *)
Lemma construct_site (w : World) (pre post : Trace) (ln : nat) (c : Call)
      (o : Outcome) :
  script_trace w = pre ++ ECall ln c o :: post ->
  is_construct c = (ln =? 41).
Proof.
  intros E. destruct (script_sites w) as (_ & K & _).
  rewrite E in K. apply forallb_at in K. cbn in K.
  apply eqb_prop in K. exact K.
Qed.

(** What becomes of a raise: when the enclosing handler catches it, the
    print of that handler comes next; when no handler does, because the
    exception is no instance of [Exception] or the line lies in no [try],
    the run ends there with the exception. *)
Lemma raise_fate (w : World) (pre post : Trace) (ln : nat) (c : Call) (e : Exn) :
  script_trace w = pre ++ ECall ln c (Raises e) :: post ->
  match handler_of ln with
  | Some (hl, pfx) =>
      if exn_is_exception e
      then exists post', post = EPrint hl (pfx +++ exn_msg e) :: post'
      else post = [] /\ script_result w = Raise e
  | None => ln = 41 /\ c = CConstruct /\ post = [] /\ script_result w = Raise e
  end.
Proof.
  intros E. pose proof (script_settled w) as S. rewrite E in S.
  apply settled_at in S.
  destruct (handler_of ln) as [[hl pfx]|] eqn:Hh.
  - destruct (exn_is_exception e); [exact S |].
    destruct S as [-> S]. split; [reflexivity | apply outcome_some; exact S].
  - destruct S as [-> S].
    destruct (script_sites w) as (_ & _ & G).
    rewrite E in G. apply forallb_at in G. cbn in G. rewrite Hh in G.
    apply Nat.eqb_eq in G. subst ln.
    pose proof (construct_site w pre [] 41 c _ E) as K. cbn in K.
    destruct c; try discriminate K.
    repeat split; try reflexivity. apply outcome_some. exact S.
Qed.

(** * The claims *)

(** ** C1: the script runs to completion *)

(** C1 (as stated) fails: when the constructor of line 41 raises, nothing
    catches the exception; it leaves [main], [pandas_example] never starts
    and neither closing banner nor pandas heading is printed.  And an
    exception that is no instance of [Exception], such as the interrupt
    of the first request, passes the handler of line 34 and ends the run
    at line 27. *)
Lemma script_aborts_without_api_key :
  (script_result w_no_key = Raise no_key /\
   raised_at 41 (script_trace w_no_key) = true /\
   printed_at 132 (script_trace w_no_key) = false /\
   printed_at 139 (script_trace w_no_key) = false) /\
  (script_result w_interrupted = Raise interrupt /\
   raised_at 41 (script_trace w_interrupted) = false /\
   last (script_trace w_interrupted) (EPrint 0 "")
   = ECall 27 (CPredictFn (mkArgs (DList [10; 12; 13; 15; 17; 16; 18; 20; 22; 25]%Z)
                                  (Some 5%Z) None None))
           (Raises interrupt)).
Proof. repeat split; reflexivity. Qed.

(** C1 (amended): for every behaviour of the library in which the call
    [SimpleTSFMClient()] of line 41 does not raise and every exception
    raised by the other calls is an instance of [Exception], the script
    run as [__main__] ends without an uncaught exception. *)
Theorem script_completes_when_raises_are_caught (w : World) :
  raised_at 41 (script_trace w) = false ->
  (forall ln c e,
     In (ECall ln c (Raises e)) (script_trace w) -> exn_is_exception e = true) ->
  script_result w = Ok tt.
Proof.
  intros H41 Hexc.
  destruct (script_sites w) as (_ & _ & G).
  pose proof (uncaught_kinds _ G H41 Hexc) as U.
  rewrite script_ends in U.
  destruct (script_result w) as [[]|e]; [reflexivity | discriminate U].
Qed.

(** every raise of the trace [t] is one of an instance of [Exception] *)
Ltac check_raises :=
  let ln := fresh "ln" in
  let c := fresh "c" in
  let e := fresh "e" in
  let I := fresh "I" in
  intros ln c e I; vm_compute in I;
  repeat match type of I with _ \/ _ => destruct I as [I | I] end;
  try contradiction; try discriminate I; inversion I; reflexivity.

Lemma script_completes_when_server_is_down :
  raised_at 41 (script_trace w_down) = false /\
  (forall ln c e,
     In (ECall ln c (Raises e)) (script_trace w_down) ->
     exn_is_exception e = true) /\
  script_result w_down = Ok tt.
Proof.
  assert (forall ln c e,
             In (ECall ln c (Raises e)) (script_trace w_down) ->
             exn_is_exception e = true) as X by check_raises.
  split; [reflexivity |]. split; [exact X |].
  exact (script_completes_when_raises_are_caught w_down eq_refl X).
Defined.

(** ** C2: every call sits in a [try] *)

(** C2 (as stated) fails for the client construction: line 41 has no
    enclosing handler, the raise is the last event of the run, no failure
    message follows it and the script ends with the exception. *)
Lemma constructor_call_is_unguarded :
  handler_of 41 = None /\
  last (script_trace w_no_key) (EPrint 0 "") = ECall 41 CConstruct (Raises no_key) /\
  prints_text (error_text no_key) (script_trace w_no_key) = false /\
  script_result w_no_key = Raise no_key.
Proof. repeat split; reflexivity. Qed.

(** C2 (amended): every call into the library other than the client
    construction (every predict, list_models, health_check,
    get_model_info, to_pandas call and every attribute read of a response,
    in [main] and in [pandas_example]) lies in a [try] body whose clause
    is [except Exception]: when it raises an instance of [Exception], the
    very next event is the print of the enclosing clause, a failure
    message ending in [str(e)]; when it raises anything else, the clause
    lets it through and the run ends there.  The constructor call of line
    41 lies in no [try]: when it raises, the run ends there with that
    exception. *)
Theorem calls_guarded_except_constructor
        (w : World) (pre post : Trace) (ln : nat) (c : Call) (e : Exn) :
  script_trace w = pre ++ ECall ln c (Raises e) :: post ->
  (c <> CConstruct ->
   exists hl pfx,
     handler_of ln = Some (hl, pfx) /\
     (pfx = error_prefix \/ pfx = toto_prefix) /\
     if exn_is_exception e
     then exists post', post = EPrint hl (pfx +++ exn_msg e) :: post'
     else post = [] /\ script_result w = Raise e) /\
  (c = CConstruct ->
   ln = 41 /\ handler_of ln = None /\ post = [] /\ script_result w = Raise e).
Proof.
  intros E. pose proof (raise_fate w pre post ln c e E) as F.
  pose proof (construct_site w pre post ln c _ E) as K.
  split.
  - intros Hc. destruct (handler_of ln) as [[hl pfx]|] eqn:Hh.
    + exists hl, pfx. split; [reflexivity |].
      split; [eapply handler_prefix; exact Hh | exact F].
    + destruct F as (_ & -> & _). contradiction.
  - intros ->. cbn in K. symmetry in K. apply Nat.eqb_eq in K. subst ln.
    cbn in F. tauto.
Qed.

Lemma calls_guarded_when_server_is_down :
  let t := script_trace w_down in
  let c := CPredictFn (mkArgs (DList [10; 12; 13; 15; 17; 16; 18; 20; 22; 25]%Z)
                              (Some 5%Z) None None) in
  t = firstn 7 t ++ ECall 27 c (Raises refused) :: skipn 8 t /\
  c <> CConstruct /\
  exists hl pfx,
    handler_of 27 = Some (hl, pfx) /\
    (pfx = error_prefix \/ pfx = toto_prefix) /\
    if exn_is_exception refused
    then exists post', skipn 8 t = EPrint hl (pfx +++ exn_msg refused) :: post'
    else skipn 8 t = [] /\ script_result w_down = Raise refused.
Proof.
  intros t c.
  assert (t = firstn 7 t ++ ECall 27 c (Raises refused) :: skipn 8 t) as E
    by (vm_compute; reflexivity).
  assert (c <> CConstruct) as N by discriminate.
  split; [exact E |]. split; [exact N |].
  exact (proj1 (calls_guarded_except_constructor w_down _ _ 27 c refused E) N).
Defined.

(** ** C3: a failed example does not stop the later ones *)

(** C3 (as stated) fails: with no API key and no server, example 1 fails
    and its handler reports it, example 2 prints its heading and then the
    constructor raises; its guarded calls are not attempted and neither
    example 3, 4, 5 nor [pandas_example] runs. *)
Lemma constructor_failure_stops_later_examples :
  raised_at 27 (script_trace w_nothing) = true /\
  In (EPrint 35 (error_text refused)) (script_trace w_nothing) /\
  In (EPrint 38 heading2) (script_trace w_nothing) /\
  called_at 45 (script_trace w_nothing) = false /\
  printed_at 66 (script_trace w_nothing) = false /\
  printed_at 88 (script_trace w_nothing) = false /\
  printed_at 117 (script_trace w_nothing) = false /\
  printed_at 139 (script_trace w_nothing) = false.
Proof.
  repeat split; try reflexivity; vm_compute; tauto.
Qed.

(** C3 (amended): for every choice of which calls raise, an example whose
    raises are caught by its handlers does not prevent the later ones:
    example 1 always runs, and each later example, as well as
    [pandas_example], runs (its heading is printed and its first call is
    attempted) unless an earlier part ended the run with a raise that no
    handler catches, that is a raise of the constructor of line 41 or of
    an exception that is no instance of [Exception].  The guarded calls of
    example 2 are attempted when, in addition, its constructor call
    returns. *)
Theorem examples_run_unless_stopped_before (w : World) :
  (In (EPrint 20 heading1) (script_trace w) /\
   called_at 27 (script_trace w) = true) /\
  (stopped_before 2 (script_trace w) = false ->
   In (EPrint 38 heading2) (script_trace w) /\
   called_at 41 (script_trace w) = true /\
   (raised_at 41 (script_trace w) = false ->
    called_at 45 (script_trace w) = true)) /\
  (stopped_before 3 (script_trace w) = false ->
   In (EPrint 66 heading3) (script_trace w) /\
   called_at 77 (script_trace w) = true) /\
  (stopped_before 4 (script_trace w) = false ->
   In (EPrint 88 heading4) (script_trace w) /\
   called_at 95 (script_trace w) = true) /\
  (stopped_before 5 (script_trace w) = false ->
   In (EPrint 117 heading5) (script_trace w) /\
   called_at 122 (script_trace w) = true) /\
  (stopped_before 7 (script_trace w) = false ->
   In (EPrint 139 heading_pandas) (script_trace w) /\
   called_at 157 (script_trace w) = true).
Proof.
  run_cases w.
  destruct (run_stops _ _ _ _ _ _ _ _ _ _ _ _ _ _ _
              F1 R1 F2 R2 F3 R3 F4 R4 F5 R5 R6 F7 R7 eq_refl)
    as (T2 & T3 & T4 & T5 & T7 & _).
  rewrite T2, T3, T4, T5, T7.
  rewrite (called_at_locate 27), (called_at_locate 41), (called_at_locate 45),
    (called_at_locate 77), (called_at_locate 95), (called_at_locate 122),
    (called_at_locate 157), (raised_at_locate 41).
  change (stage 27) with 1. change (stage 41) with 2. change (stage 45) with 2.
  change (stage 77) with 3. change (stage 95) with 4.
  change (stage 122) with 5. change (stage 157) with 7.
  block_facts.
  destruct (run_events d1 d2 d3 d4 d5 fin d7 A1 A2 A3 A4 A5 A6 A7 _ eq_refl)
    as (-> & -> & -> & -> & -> & _ & ->).
  unfold run_trace.
  repeat match goal with |- _ /\ _ => split end.
  - destruct R1 as (_ & I & _). rewrite !in_app_iff. tauto.
  - destruct R1 as (_ & _ & Q & _). exact Q.
  - intros Z. destruct o1; [discriminate Z |]. cbn in R2.
    destruct R2 as ((_ & I & Q & _) & Q').
    split; [rewrite !in_app_iff; tauto | split; assumption].
  - intros Z. destruct o2; [discriminate Z |]. cbn in R3.
    destruct R3 as (_ & I & Q & _).
    split; [rewrite !in_app_iff; tauto | assumption].
  - intros Z. destruct o3; [discriminate Z |]. cbn in R4.
    destruct R4 as (_ & I & Q & _).
    split; [rewrite !in_app_iff; tauto | assumption].
  - intros Z. destruct o4; [discriminate Z |]. cbn in R5.
    destruct R5 as (_ & I & Q & _).
    split; [rewrite !in_app_iff; tauto | assumption].
  - intros Z. destruct o6; [discriminate Z |]. cbn in R7.
    destruct R7 as (_ & I & Q & _).
    split; [rewrite !in_app_iff; tauto | assumption].
Qed.

Lemma examples_all_run_when_server_is_down :
  stopped_before 7 (script_trace w_down) = false /\
  In (EPrint 139 heading_pandas) (script_trace w_down) /\
  called_at 157 (script_trace w_down) = true.
Proof.
  split; [reflexivity |].
  exact (proj2 (proj2 (proj2 (proj2 (proj2
           (examples_run_unless_stopped_before w_down))))) eq_refl).
Defined.

(** ** C4: all failures are handled alike *)

(** C4 (as stated) fails: when the server has no TOTO model, the raise of
    the predict call of line 104 is reported by the inner handler with a
    message of another form than the generic one, and the generic message
    is printed nowhere. *)
Lemma toto_failure_has_its_own_message :
  (exists c, nth_error (script_trace w_no_toto) 40
             = Some (ECall 104 c (Raises no_model))) /\
  nth_error (script_trace w_no_toto) 41 = Some (EPrint 111 (toto_text no_model)) /\
  String.eqb (toto_text no_model) (error_text no_model) = false /\
  prints_text (error_text no_model) (script_trace w_no_toto) = false.
Proof.
  split; [eexists; vm_compute; reflexivity |].
  repeat split; reflexivity.
Qed.

(** C4 (amended): among the instances of [Exception] no error is
    classified by kind and none is retried: for every such exception
    raised by a call other than the client construction, the next event
    is the print of the enclosing [except Exception] clause, whose text
    is a prefix chosen by the position of the call alone, followed by
    [str(e)], and the line that raised is not called again.  The prefix is
    the generic one except for the TOTO predict of lines 104-109, whose
    inner handler prints the model-not-available message.  (An exception
    of the constructor, or one that is no instance of [Exception], is not
    caught at all.) *)
Theorem failures_reported_by_call_position
        (w : World) (pre post : Trace) (ln : nat) (c : Call) (e : Exn) :
  script_trace w = pre ++ ECall ln c (Raises e) :: post ->
  c <> CConstruct ->
  exn_is_exception e = true ->
  exists hl post',
    post = EPrint hl ((if between 104 109 ln then toto_prefix else error_prefix)
                        +++ exn_msg e) :: post' /\
    called_at ln post = false.
Proof.
  intros E Hc X. pose proof (raise_fate w pre post ln c e E) as F.
  rewrite X in F.
  destruct (handler_of ln) as [[hl pfx]|] eqn:Hh.
  - destruct F as (post' & F). exists hl, post'. split.
    + rewrite <- (handler_prefix_by_line ln hl pfx Hh). exact F.
    + pose proof (script_calls_ascend w) as A. rewrite E in A.
      eapply calls_ascend_once. exact A.
  - destruct F as (_ & -> & _). contradiction.
Qed.

Lemma failures_reported_when_toto_is_missing :
  let t := script_trace w_no_toto in
  let c := CPredict some_obj
             (mkArgs (DList [5; 6; 7; 8; 9; 10; 11; 12; 13; 14]%Z) (Some 3%Z)
                     None (Some "toto-open-base-1.0")) in
  t = firstn 40 t ++ ECall 104 c (Raises no_model) :: skipn 41 t /\
  c <> CConstruct /\
  exn_is_exception no_model = true /\
  exists hl post',
    skipn 41 t = EPrint hl (toto_prefix +++ exn_msg no_model) :: post' /\
    called_at 104 (skipn 41 t) = false.
Proof.
  intros t c.
  assert (t = firstn 40 t ++ ECall 104 c (Raises no_model) :: skipn 41 t) as E
    by (vm_compute; reflexivity).
  assert (c <> CConstruct) as N by discriminate.
  split; [exact E |]. split; [exact N |]. split; [reflexivity |].
  exact (failures_reported_by_call_position w_no_toto _ _ 104 c no_model
           E N eq_refl).
Defined.

(** ** C5: a forecast or a failure message per example *)




(** ** C6: what predict is called with *)

(** C6 (as stated) fails at line 49: [client.predict([1, ..., 10])] passes
    the series and nothing else, no forecast length. *)
Lemma simple_prediction_passes_no_horizon :
  In (ECall 49 (CPredict some_obj (mkArgs (DList one_to_ten) None None None))
            (Returns some_obj))
     (script_trace w_up) /\
  horizon_given (mkArgs (DList one_to_ten) None None None) = false.
Proof. split; [vm_compute; tauto | reflexivity]. Qed.

(** C6 (amended): every predict invocation of the script submits a
    non-empty time series; it passes a forecast length unless it is the
    call of line 49, which passes the series alone, with neither
    confidence bounds nor a model name; and an instance of [Exception]
    raised by a predict call is caught by the handler enclosing its call
    site, which prints it at once (any other exception is let through
    and ends the run). *)
Theorem predict_calls_pass_series_and_are_guarded
        (w : World) (pre post : Trace) (ln : nat) (c : Call) (o : Outcome)
        (a : PredictArgs) :
  script_trace w = pre ++ ECall ln c o :: post ->
  predict_args c = Some a ->
  data_given (data a) = true /\
  horizon_given a = negb (ln =? 49) /\
  (ln = 49 -> confidence_intervals a = None /\ model a = None) /\
  (forall e, o = Raises e ->
     exists hl pfx,
       handler_of ln = Some (hl, pfx) /\
       if exn_is_exception e
       then exists post', post = EPrint hl (pfx +++ exn_msg e) :: post'
       else post = [] /\ script_result w = Raise e).
Proof.
  intros E Ha. destruct (script_sites w) as (P & _).
  rewrite E in P. apply forallb_at in P. cbn in P. rewrite Ha in P.
  apply andb_true_iff in P. destruct P as [P P3].
  apply andb_true_iff in P. destruct P as [P1 P2]. apply eqb_prop in P2.
  split; [exact P1 |]. split; [exact P2 |]. split.
  - intros ->. cbn in P3. unfold no_options in P3.
    destruct (confidence_intervals a); [discriminate P3 |].
    destruct (model a); [discriminate P3 |]. auto.
  - intros e ->. pose proof (raise_fate w pre post ln c e E) as F.
    destruct (handler_of ln) as [[hl pfx]|].
    + exists hl, pfx. split; [reflexivity | exact F].
    + destruct F as (_ & -> & _). discriminate Ha.
Qed.

Lemma predict_call_of_example1_when_server_is_down :
  let t := script_trace w_down in
  let a := mkArgs (DList [10; 12; 13; 15; 17; 16; 18; 20; 22; 25]%Z)
                  (Some 5%Z) None None in
  t = firstn 7 t ++ ECall 27 (CPredictFn a) (Raises refused) :: skipn 8 t /\
  data_given (data a) = true /\
  horizon_given a = negb (27 =? 49) /\
  (27 = 49 -> confidence_intervals a = None /\ model a = None) /\
  (forall e, Raises refused = Raises e ->
     exists hl pfx,
       handler_of 27 = Some (hl, pfx) /\
       if exn_is_exception e
       then exists post', skipn 8 t = EPrint hl (pfx +++ exn_msg e) :: post'
       else skipn 8 t = [] /\ script_result w_down = Raise e).
Proof.
  intros t a.
  assert (t = firstn 7 t ++ ECall 27 (CPredictFn a) (Raises refused) :: skipn 8 t)
    as E by (vm_compute; reflexivity).
  split; [exact E |].
  exact (predict_calls_pass_series_and_are_guarded
           w_down _ _ 27 (CPredictFn a) (Raises refused) a E eq_refl).
Defined.

(** ** C7: the blocks run one after the other *)

(** C7: in every run the events come in the order of the blocks: an event
    never precedes an event of an earlier stage, so all calls and prints of
    example k come before those of example k+1; a raise is either caught,
    and then followed at once by the print of its handler, in the same
    block, before anything of the next block, or it is the last event of
    the run, so that no later block begins; and an event of
    [pandas_example] only occurs after [main] has returned, behind all of
    [main]'s events. *)
Theorem blocks_run_in_sequence (w : World) :
  (forall pre a mid b post,
     script_trace w = pre ++ a :: mid ++ b :: post ->
     stage_of a <= stage_of b) /\
  (forall pre ln c e post,
     script_trace w = pre ++ ECall ln c (Raises e) :: post ->
     (exists hl s post', post = EPrint hl s :: post' /\ stage hl = stage ln) \/
     (post = [] /\ script_result w = Raise e)) /\
  (forall ev,
     In ev (script_trace w) -> stage_of ev = 7 ->
     exists dm dp,
       main w prologue = (Ok tt, dm) /\
       script_trace w = prologue ++ dm ++ dp /\
       In ev dp).
Proof.
  split; [| split].
  - intros pre a mid b post E. pose proof (script_stages_ascend w) as A.
    rewrite E in A. eapply stages_ascend_ordered. exact A.
  - intros pre ln c e post E.
    pose proof (raise_fate w pre post ln c e E) as F.
    destruct (handler_of ln) as [[hl pfx]|] eqn:Hh.
    + destruct (exn_is_exception e).
      * destruct F as (post' & ->). left.
        exists hl, (pfx +++ exn_msg e), post'.
        split; [reflexivity |]. eapply handler_stage. exact Hh.
      * right. exact F.
    + right. tauto.
  - intros ev I E7. pose proof (in_events_of_stage 7 _ ev I E7) as I7.
    clear I. run_cases w. block_facts.
    destruct (run_events d1 d2 d3 d4 d5 fin d7 A1 A2 A3 A4 A5 A6 A7 _ eq_refl)
      as (_ & _ & _ & _ & _ & _ & Z).
    rewrite Z in I7.
    destruct o6 as [e6|]; cbn in R7.
    + destruct R7 as [-> _]. contradiction.
    + exists (banner ++ d1 ++ d2 ++ d3 ++ d4 ++ d5 ++ fin), d7.
      split; [exact Em |]. split; [| exact I7].
      unfold run_trace. rewrite <- !app_assoc. reflexivity.
Qed.

Lemma pandas_heading_after_main_when_server_is_up :
  In (EPrint 139 heading_pandas) (script_trace w_up) /\
  stage_of (EPrint 139 heading_pandas) = 7 /\
  exists dm dp,
    main w_up prologue = (Ok tt, dm) /\
    script_trace w_up = prologue ++ dm ++ dp /\
    In (EPrint 139 heading_pandas) dp.
Proof.
  assert (In (EPrint 139 heading_pandas) (script_trace w_up)) as I
    by (vm_compute; tauto).
  split; [exact I |]. split; [reflexivity |].
  exact (proj2 (proj2 (blocks_run_in_sequence w_up)) _ I eq_refl).
Defined.

(** ** C8: one boundary for example 2 *)

(** C8: in example 2 the list_models call and the two predict calls share
    the handler of line 63: a raise of any of them meets that one clause,
    which prints at once when the exception is an instance of [Exception]
    and lets it end the run otherwise; when list_models raises neither
    predict call is made, and when the first predict raises the predict
    with confidence intervals is not made. *)
Theorem example2_has_one_boundary (w : World) :
  (raised_at 45 (script_trace w) = true ->
   called_at 49 (script_trace w) = false /\ called_at 53 (script_trace w) = false) /\
  (raised_at 49 (script_trace w) = true ->
   called_at 53 (script_trace w) = false) /\
  (forall pre ln c e post,
     script_trace w = pre ++ ECall ln c (Raises e) :: post ->
     ln = 45 \/ ln = 49 \/ ln = 53 ->
     if exn_is_exception e
     then exists post', post = EPrint 63 (error_text e) :: post'
     else post = [] /\ script_result w = Raise e).
Proof.
  split; [| split].
  - rewrite raised_at_locate, (called_at_locate 49), (called_at_locate 53).
    change (stage 45) with 2. change (stage 49) with 2. change (stage 53) with 2.
    run_cases w. pose proof (proj1 (proj2 F2)) as L. block_facts.
    destruct (run_events d1 d2 d3 d4 d5 fin d7 A1 A2 A3 A4 A5 A6 A7 _ eq_refl)
      as (_ & -> & _).
    exact L.
  - rewrite raised_at_locate, (called_at_locate 53).
    change (stage 49) with 2. change (stage 53) with 2.
    run_cases w. pose proof (proj2 (proj2 F2)) as L. block_facts.
    destruct (run_events d1 d2 d3 d4 d5 fin d7 A1 A2 A3 A4 A5 A6 A7 _ eq_refl)
      as (_ & -> & _).
    exact L.
  - intros pre ln c e post E Hl.
    pose proof (raise_fate w pre post ln c e E) as F.
    destruct Hl as [-> | [-> | ->]]; exact F.
Qed.

Lemma example2_skips_predictions_when_server_is_down :
  raised_at 45 (script_trace w_down) = true /\
  called_at 49 (script_trace w_down) = false /\
  called_at 53 (script_trace w_down) = false.
Proof.
  split; [reflexivity |].
  exact (proj1 (example2_has_one_boundary w_down) eq_refl).
Defined.

(** ** C9: the inner handler of example 4 *)

(** C9 (as stated) fails for an exception that is no instance of
    [Exception]: when the request to the TOTO model is interrupted,
    neither the inner handler (line 110) nor the outer one (line 113)
    catches the interrupt; no model-not-available message is printed and
    the rest of the script (example 5, the closing banner,
    [pandas_example]) does not run. *)
Lemma toto_interrupt_ends_the_run :
  last (script_trace w_toto_interrupted) (EPrint 0 "")
  = ECall 104 (CPredict some_obj
                 (mkArgs (DList [5; 6; 7; 8; 9; 10; 11; 12; 13; 14]%Z) (Some 3%Z)
                         None (Some "toto-open-base-1.0")))
          (Raises interrupt) /\
  printed_at 111 (script_trace w_toto_interrupted) = false /\
  printed_at 117 (script_trace w_toto_interrupted) = false /\
  printed_at 132 (script_trace w_toto_interrupted) = false /\
  printed_at 139 (script_trace w_toto_interrupted) = false /\
  script_result w_toto_interrupted = Raise interrupt.
Proof. repeat split; reflexivity. Qed.

(** C9 (amended): an instance of [Exception] raised by the TOTO predict of
    line 104 is caught by the inner handler, whose model-not-available
    message is the next event, and the script goes on: example 5 prints
    its heading and makes its first call, and, when no later raise
    escapes the handlers, the run ends normally with the closing banner
    printed and [pandas_example] making its call.  Whatever line 104
    raises, the outer handler of example 4 does not print in that run: it
    only prints when the chronos predict of line 95 or the read of its
    forecast at line 100 raised. *)
Theorem toto_failure_stays_in_inner_handler (w : World) :
  (forall pre c e post,
     script_trace w = pre ++ ECall 104 c (Raises e) :: post ->
     printed_at 114 (script_trace w) = false /\
     (exn_is_exception e = true ->
      (exists post', post = EPrint 111 (toto_text e) :: post') /\
      In (EPrint 117 heading5) (script_trace w) /\
      called_at 122 (script_trace w) = true /\
      (any_uncaught (script_trace w) = false ->
       script_result w = Ok tt /\
       In (EPrint 132 completed_text) (script_trace w) /\
       called_at 157 (script_trace w) = true))) /\
  (printed_at 114 (script_trace w) = true ->
   raised_at 95 (script_trace w) = true \/ raised_at 100 (script_trace w) = true).
Proof.
  split.
  - intros pre c e post E.
    pose proof (raise_fate w pre post 104 c e E) as F.
    assert (In (ECall 104 c (Raises e)) (events_of 4 (script_trace w))) as I
      by (apply in_events_of_stage; [rewrite E; apply in_elt | reflexivity]).
    pose proof (raised_at_here 104 c e pre post) as R. rewrite <- E in R.
    clear E. revert I R F.
    rewrite raised_at_locate, printed_at_locate, (called_at_locate 122),
      (called_at_locate 157).
    change (stage 104) with 4. change (stage 114) with 4.
    change (stage 122) with 5. change (stage 157) with 7.
    run_cases w.
    destruct (run_stops _ _ _ _ _ _ _ _ _ _ _ _ _ _ _
                F1 R1 F2 R2 F3 R3 F4 R4 F5 R5 R6 F7 R7 eq_refl)
      as (_ & _ & _ & _ & _ & TU).
    rewrite TU.
    pose proof (slot_stop _ _ _ _ (block_ran_settled _ _ _) R4) as U4.
    pose proof (proj1 (proj2 F4)) as T.
    pose proof (proj2 (proj2 (proj2 F4))) as Q4.
    block_facts.
    destruct (run_events d1 d2 d3 d4 d5 fin d7 A1 A2 A3 A4 A5 A6 A7 _ eq_refl)
      as (_ & _ & _ & -> & -> & _ & ->).
    intros I R F. split; [exact (T R) |].
    intros X. rewrite X in F. cbn in F. split; [exact F |].
    (* example 4 ran and ended normally *)
    assert (o3 = None) as -> by (destruct o3; [destruct R4 as [-> _]; contradiction | reflexivity]).
    rewrite (Q4 c e I X) in U4. cbn in U4.
    destruct o4; [discriminate U4 |]. cbn in R5.
    destruct R5 as (_ & I5 & Q5 & _).
    split; [unfold run_trace; rewrite !in_app_iff; tauto |].
    split; [exact Q5 |].
    intros Z. destruct o7; [discriminate Z |].
    split; [reflexivity |].
    destruct o6 as [e6|]; [destruct R7 as [_ R7]; discriminate R7 |].
    destruct (banner_slot _ _ _ R6) as [E6 ->].
    destruct o5; [discriminate E6 |]. cbn in R7 |- *.
    destruct R7 as (_ & _ & Q7 & _).
    split; [unfold run_trace; rewrite !in_app_iff; cbn; tauto | exact Q7].
  - rewrite printed_at_locate, (raised_at_locate 95), (raised_at_locate 100).
    change (stage 114) with 4. change (stage 95) with 4. change (stage 100) with 4.
    run_cases w. pose proof (proj1 (proj2 (proj2 F4))) as O. block_facts.
    destruct (run_events d1 d2 d3 d4 d5 fin d7 A1 A2 A3 A4 A5 A6 A7 _ eq_refl)
      as (_ & _ & _ & -> & _).
    exact O.
Qed.

Lemma toto_failure_when_model_is_missing :
  let t := script_trace w_no_toto in
  let c := CPredict some_obj
             (mkArgs (DList [5; 6; 7; 8; 9; 10; 11; 12; 13; 14]%Z) (Some 3%Z)
                     None (Some "toto-open-base-1.0")) in
  t = firstn 40 t ++ ECall 104 c (Raises no_model) :: skipn 41 t /\
  printed_at 114 t = false /\
  (exn_is_exception no_model = true ->
   (exists post', skipn 41 t = EPrint 111 (toto_text no_model) :: post') /\
   In (EPrint 117 heading5) t /\
   called_at 122 t = true /\
   (any_uncaught t = false ->
    script_result w_no_toto = Ok tt /\
    In (EPrint 132 completed_text) t /\
    called_at 157 t = true)).
Proof.
  intros t c.
  assert (t = firstn 40 t ++ ECall 104 c (Raises no_model) :: skipn 41 t) as E
    by (vm_compute; reflexivity).
  split; [exact E |].
  exact (proj1 (toto_failure_stays_in_inner_handler w_no_toto) _ c no_model _ E).
Defined.

(** ** C10: the closing banner *)

(** C10: whenever [main] returns normally the last thing it printed is the
    closing banner, whether or not any call succeeded: with the server
    down [main] returns normally and prints the banner although no call
    but the constructor returned. *)
Theorem main_ends_with_completion_banner :
  (forall w h,
     fst (main w h) = Ok tt ->
     exists d, snd (main w h) = d ++ [EPrint 132 completed_text]) /\
  (fst (main w_down prologue) = Ok tt /\
   In (EPrint 132 completed_text) (snd (main w_down prologue)) /\
   only_constructor_returned (script_trace w_down) = true).
Proof.
  split.
  - intros w h H.
    destruct (main_has_parts w h)
      as [h1 h2 h3 h4 h5 cl r1 d1 r2 d2 r3 d3 r4 d4 r5 d5 r6 fin t
            E1 E2 Ecl E3 E4 E5 E6 Et].
    rewrite Et. cbn in H. subst r6.
    destruct (outcome r5) as [e|]; cbn in E6.
    + discriminate E6.
    + inversion E6. exists (banner ++ d1 ++ d2 ++ d3 ++ d4 ++ d5).
      rewrite <- !app_assoc. reflexivity.
  - split; [reflexivity |]. split; [vm_compute; tauto | reflexivity].
Qed.

Lemma main_ends_with_banner_when_server_is_down :
  fst (main w_down prologue) = Ok tt /\
  exists d, snd (main w_down prologue) = d ++ [EPrint 132 completed_text].
Proof.
  split; [reflexivity |].
  exact (proj1 main_ends_with_completion_banner w_down prologue eq_refl).
Defined.

(** * Further properties of the script *)

(** ** What every block emits, in every run *)

Lemma follows_cases {A : Type} (o : option Exn) (run : Res A * Trace)
      (r : Res A) (d : Trace) :
  follows o run (r, d) -> d = snd run \/ d = [].
Proof.
  destruct o as [e|]; cbn; intros E.
  - inversion E. auto.
  - rewrite E. auto.
Qed.

(** A property of what every block emits holds of every part of every
    run; the parts that are not reached are empty. *)
Lemma run_emissions (Q : Trace -> Prop) :
  every_block Q -> Q [] ->
  forall w,
  exists d1 d2 d3 d4 d5 fin d7,
    script_trace w = run_trace d1 d2 d3 d4 d5 fin d7 /\
    (all_in_stage 1 d1 = true /\ all_in_stage 2 d2 = true /\
     all_in_stage 3 d3 = true /\ all_in_stage 4 d4 = true /\
     all_in_stage 5 d5 = true /\ all_in_stage 6 fin = true /\
     all_in_stage 7 d7 = true) /\
    (fin = [] \/ fin = [EPrint 132 completed_text]) /\
    Q d1 /\ Q d2 /\ Q d3 /\ Q d4 /\ Q d5 /\ Q d7.
Proof.
  intros (Q1 & Q2 & Q3 & Q4 & Q5 & Q7) Qnil w.
  destruct (script_has_parts w) as [rm dm h7 r7 d7 t P Em E7 ->].
  destruct P as [h1 h2 h3 h4 h5 cl r1 d1 r2 d2 r3 d3 r4 d4 r5 d5 r6 fin dm
                   E1 E2 Ecl E3 E4 E5 E6 ->].
  exists d1, d2, d3, d4, d5, fin, d7.
  split; [unfold run_trace; rewrite <- !app_assoc; reflexivity |].
  assert (d1 = snd (example1 w h1)) as B1 by (rewrite E1; reflexivity).
  apply follows_cases in E2, E3, E4, E5, E6, E7. cbn [snd] in E6.
  assert (forall k lo hi d, block_ok k lo hi d -> all_in_stage k d = true) as S
    by (intros k lo hi d []; assumption).
  repeat match goal with |- _ /\ _ => split end.
  - rewrite B1. exact (S _ _ _ _ (proj1 (example1_runs w h1))).
  - destruct E2 as [-> | ->]; [| reflexivity].
    exact (S _ _ _ _ (proj1 (proj1 (example2_runs w h2)))).
  - destruct E3 as [-> | ->]; [| reflexivity].
    exact (S _ _ _ _ (proj1 (example3_runs w h3 cl))).
  - destruct E4 as [-> | ->]; [| reflexivity].
    exact (S _ _ _ _ (proj1 (proj1 (example4_runs w h4 cl)))).
  - destruct E5 as [-> | ->]; [| reflexivity].
    exact (S _ _ _ _ (proj1 (proj1 (example5_runs w h5 cl)))).
  - destruct E6 as [-> | ->]; reflexivity.
  - destruct E7 as [-> | ->]; [| reflexivity].
    exact (S _ _ _ _ (proj1 (pandas_example_runs w h7))).
  - tauto.
  - rewrite B1. apply Q1.
  - destruct E2 as [-> | ->]; [apply Q2 | exact Qnil].
  - destruct E3 as [-> | ->]; [apply Q3 | exact Qnil].
  - destruct E4 as [-> | ->]; [apply Q4 | exact Qnil].
  - destruct E5 as [-> | ->]; [apply Q5 | exact Qnil].
  - destruct E7 as [-> | ->]; [apply Q7 | exact Qnil].
Qed.

Section WholeTrace.

(** A property of traces that is kept by concatenation and holds of the
    fixed prints and of what every block emits holds of every run. *)
Variable T : Trace -> Prop.
Hypothesis T_app : forall a b, T a -> T b -> T (a ++ b).
Hypothesis T_nil : T [].
Hypothesis T_prologue : T prologue.
Hypothesis T_banner : T banner.
Hypothesis T_completed : T [EPrint 132 completed_text].
Hypothesis T_blocks : every_block T.

Lemma whole_trace (w : World) : T (script_trace w).
Proof.
  destruct (run_emissions T T_blocks T_nil w)
    as (d1 & d2 & d3 & d4 & d5 & fin & d7 & -> & _ & Hfin & Q).
  assert (T fin) by (destruct Hfin as [-> | ->]; assumption).
  unfold run_trace. repeat apply T_app; tauto.
Qed.

End WholeTrace.

Section CallInBlock.

(** A property of what every block emits holds of the events of the
    stage of any call of a run. *)
Variable Q : Trace -> Prop.
Hypothesis Q_blocks : every_block Q.
Hypothesis Q_nil : Q [].

Lemma call_in_block (w : World) (ln : nat) (c : Call) (o : Outcome) :
  In (ECall ln c o) (script_trace w) ->
  Q (events_of (stage ln) (script_trace w)).
Proof.
  destruct (run_emissions Q Q_blocks Q_nil w)
    as (d1 & d2 & d3 & d4 & d5 & fin & d7 & -> &
        (A1 & A2 & A3 & A4 & A5 & A6 & A7) & Hfin & H1 & H2 & H3 & H4 & H5 & H7).
  destruct (run_events d1 d2 d3 d4 d5 fin d7 A1 A2 A3 A4 A5 A6 A7 _ eq_refl)
    as (F1 & F2 & F3 & F4 & F5 & _ & F7).
  intros I. unfold run_trace in I. rewrite !in_app_iff in I.
  destruct I as [I | [I | [I | [I | [I | [I | [I | [I | I]]]]]]]].
  - cbn in I. intuition discriminate.
  - cbn in I. intuition discriminate.
  - apply (in_stage 1 d1 _ A1) in I. change (stage ln = 1) in I.
    rewrite I, F1. exact H1.
  - apply (in_stage 2 d2 _ A2) in I. change (stage ln = 2) in I.
    rewrite I, F2. exact H2.
  - apply (in_stage 3 d3 _ A3) in I. change (stage ln = 3) in I.
    rewrite I, F3. exact H3.
  - apply (in_stage 4 d4 _ A4) in I. change (stage ln = 4) in I.
    rewrite I, F4. exact H4.
  - apply (in_stage 5 d5 _ A5) in I. change (stage ln = 5) in I.
    rewrite I, F5. exact H5.
  - destruct Hfin as [-> | ->]; cbn in I; intuition discriminate.
  - apply (in_stage 7 d7 _ A7) in I. change (stage ln = 7) in I.
    rewrite I, F7. exact H7.
Qed.

End CallInBlock.

(** ** Events and the event before them *)

Lemma each_after_app (P : option Event -> Event -> Prop) (a b : Trace) :
  (forall prev, each_after P prev a) -> (forall prev, each_after P prev b) ->
  forall prev, each_after P prev (a ++ b).
Proof.
  intros Ha Hb prev. specialize (Ha prev). revert prev Ha.
  induction a as [|ev a IH]; cbn; intros prev Ha; [apply Hb |].
  destruct Ha as [H1 H2]. split; [exact H1 | apply IH; exact H2].
Qed.

Lemma each_after_at (P : option Event -> Event -> Prop) (prev : option Event)
      (pre post : Trace) (ev : Event) :
  each_after P prev (pre ++ ev :: post) -> P (before prev pre) ev.
Proof.
  revert prev. induction pre as [|x pre IH]; cbn; intros prev H.
  - tauto.
  - apply IH. tauto.
Qed.

Lemma before_some (prev : option Event) (pre : Trace) (x : Event) :
  before prev pre = Some x ->
  (pre = [] /\ prev = Some x) \/ (exists pre', pre = pre' ++ [x]).
Proof.
  revert prev. induction pre as [|y pre IH]; cbn; intros prev H; [auto |].
  right. destruct (IH _ H) as [(-> & E) | (pre' & ->)].
  - inversion E. exists []. reflexivity.
  - exists (y :: pre'). reflexivity.
Qed.

Ltac check_each :=
  cbn;
  repeat match goal with
         | |- _ /\ _ => split
         | |- True => exact I
         | |- _ = _ -> _ => let H := fresh "H" in intro H; try discriminate H
         | |- forall _, _ => intro
         | |- exists _, _ => eexists
         | |- _ = _ => first [reflexivity | assumption]
         end.

Ltac blockwise :=
  unfold every_block;
  repeat match goal with |- _ /\ _ => split end;
  intros; unfold_blocks; run_block.

Lemma blocks_failure_justified :
  every_block (fun d => forall prev, each_after failure_justified prev d).
Proof. blockwise; check_each. Qed.

Lemma blocks_forecast_justified :
  every_block (fun d => forall prev, each_after forecast_justified prev d).
Proof. blockwise; check_each. Qed.

(** ** X1, X2: [pandas_example] and [main] as functions *)

(** a trace whose raises are settled with an exception ends with the raise
    of that exception, which no handler caught *)
Lemma settled_ends (t : Trace) (e : Exn) :
  settled t (Some e) ->
  exists d ln c,
    t = d ++ [ECall ln c (Raises e)] /\ uncaught (ECall ln c (Raises e)) = true.
Proof.
  induction t as [|ev t IH]; cbn [settled].
  - discriminate.
  - assert (settled t (Some e) ->
            exists d ln c, ev :: t = d ++ [ECall ln c (Raises e)] /\
                           uncaught (ECall ln c (Raises e)) = true) as Step.
    { intros S. destruct (IH S) as (d & ln & c & -> & U).
      exists (ev :: d), ln, c. split; [reflexivity | exact U]. }
    destruct ev as [l s|l c [v|e0]]; [exact Step | exact Step |].
    destruct (handler_of l) as [[hl pfx]|] eqn:Hh.
    + destruct (exn_is_exception e0) eqn:X.
      * intros [_ S]. exact (Step S).
      * intros [-> E]. inversion E. subst e0.
        exists [], l, c. split; [reflexivity |].
        cbn. rewrite Hh, X. reflexivity.
    + intros [-> E]. inversion E. subst e0.
      exists [], l, c. split; [reflexivity |].
      cbn. rewrite Hh. reflexivity.
Qed.

(** an uncaught raise at a guarded line other than 41 is the raise of an
    exception that is no instance of [Exception] *)
Lemma uncaught_class (ln : nat) (c : Call) (e : Exn) :
  uncaught (ECall ln c (Raises e)) = true ->
  guarded_site (ECall ln c (Raises e)) = true ->
  ln = 41 \/ exn_is_exception e = false.
Proof.
  cbn. destruct (handler_of ln) as [[hl pfx]|].
  - intros U _. right. apply negb_true_iff. exact U.
  - intros _ G. left. apply Nat.eqb_eq. exact G.
Qed.

(** X1: [pandas_example] returns normally, from any state and in any
    world, when every exception raised in it is an instance of
    [Exception]: its handler catches and reports it.  When it does raise,
    the exception is no instance of [Exception] and its raise is the last
    thing the function did. *)
Theorem pandas_example_raises_only_uncaught (w : World) (h : Trace) :
  ((forall ln c e, In (ECall ln c (Raises e)) (snd (pandas_example w h)) ->
                   exn_is_exception e = true) ->
   fst (pandas_example w h) = Ok tt) /\
  (forall e, fst (pandas_example w h) = Raise e ->
     exn_is_exception e = false /\
     exists d ln c, snd (pandas_example w h) = d ++ [ECall ln c (Raises e)]).
Proof.
  destruct (pandas_example_runs w h) as [[A _ _ _ G] R].
  pose proof (proj1 R) as S.
  assert (raised_at 41 (snd (pandas_example w h)) = false) as N.
  { rewrite raised_at_locate. change (stage 41) with 2.
    rewrite (events_of_stage 7 2 _ A). reflexivity. }
  split.
  - intros X. pose proof (uncaught_kinds _ G N X) as U.
    rewrite (settled_uncaught _ _ S) in U.
    destruct (fst (pandas_example w h)) as [[]|e]; [reflexivity | discriminate U].
  - intros e E. rewrite E in S. cbn [outcome] in S.
    destruct (settled_ends _ _ S) as (d & ln & c & Ed & U).
    assert (In (ECall ln c (Raises e)) (snd (pandas_example w h))) as I
      by (rewrite Ed; apply in_elt).
    pose proof (in_stage 7 _ _ A I) as St. change (stage ln = 7) in St.
    rewrite forallb_forall in G.
    destruct (uncaught_class ln c e U (G _ I)) as [-> | X].
    + discriminate St.
    + split; [exact X |]. exists d, ln, c. exact Ed.
Qed.

Lemma pandas_example_returns_when_server_is_down :
  (forall ln c e,
      In (ECall ln c (Raises e)) (snd (pandas_example w_down prologue)) ->
      exn_is_exception e = true) /\
  fst (pandas_example w_down prologue) = Ok tt.
Proof.
  assert (forall ln c e,
             In (ECall ln c (Raises e)) (snd (pandas_example w_down prologue)) ->
             exn_is_exception e = true) as X.
  { intros ln c e I. vm_compute in I.
    repeat match type of I with _ \/ _ => destruct I as [I | I] end;
      try contradiction; try discriminate I.
    inversion I. reflexivity. }
  split; [exact X |].
  exact (proj1 (pandas_example_raises_only_uncaught w_down prologue) X).
Defined.

(** the parts of [main], whatever the state it starts from *)
Lemma main_settled (w : World) (h : Trace) :
  settled (snd (main w h)) (outcome (fst (main w h))) /\
  forallb guarded_site (snd (main w h)) = true /\
  printed_at 132 (snd (main w h)) = negb (is_some (outcome (fst (main w h)))).
Proof.
  destruct (main_has_parts w h)
    as [h1 h2 h3 h4 h5 cl r1 d1 r2 d2 r3 d3 r4 d4 r5 d5 r6 fin t
          E1 E2 Ecl E3 E4 E5 E6 ->].
  destruct idle_facts as (N2 & N3 & N4 & N5 & _).
  destruct (example1_runs w h1) as [F1 R1]. rewrite E1 in F1, R1.
  cbn [fst snd] in F1, R1.
  destruct (follows_slot example2_facts example2_ran _ _ _ _
              (proj1 (example2_runs w h2)) (proj2 (example2_runs w h2)) N2 E2)
    as [F2 R2].
  destruct (follows_slot example3_facts example3_ran _ _ _ _
              (proj1 (example3_runs w h3 cl)) (proj2 (example3_runs w h3 cl)) N3 E3)
    as [F3 R3].
  destruct (follows_slot example4_facts example4_ran _ _ _ _
              (proj1 (example4_runs w h4 cl)) (proj2 (example4_runs w h4 cl)) N4 E4)
    as [F4 R4].
  destruct (follows_slot example5_facts example5_ran _ _ _ _
              (proj1 (example5_runs w h5 cl)) (proj2 (example5_runs w h5 cl)) N5 E5)
    as [F5 R5].
  assert (slot banner_ran (outcome r5) (outcome r6) fin) as R6.
  { destruct (outcome r5) as [e|]; cbn in E6 |- *.
    - inversion E6. auto.
    - inversion E6. split; reflexivity. }
  split; [| split].
  - assert (settled (banner ++ d1) (outcome r1)) as S1
      by (apply settled_app; [reflexivity | exact (proj1 R1)]).
    pose proof (slot_settled _ _ _ _ _ example2_ran_settled S1 R2) as S2.
    pose proof (slot_settled _ _ _ _ _ (block_ran_settled _ _ _) S2 R3) as S3.
    pose proof (slot_settled _ _ _ _ _ (block_ran_settled _ _ _) S3 R4) as S4.
    pose proof (slot_settled _ _ _ _ _ example5_ran_settled S4 R5) as S5.
    pose proof (slot_settled _ _ _ _ _ banner_ran_settled S5 R6) as S6.
    rewrite <- !app_assoc in S6. exact S6.
  - destruct F1 as [_ _ _ _ G1]. destruct (proj1 F2) as [_ _ _ _ G2].
    destruct F3 as [_ _ _ _ G3]. destruct (proj1 F4) as [_ _ _ _ G4].
    destruct (proj1 F5) as [_ _ _ _ G5].
    destruct (banner_slot _ _ _ R6) as [_ ->].
    rewrite !forallb_app, G1, G2, G3, G4, G5.
    destruct (is_some (outcome r5)); reflexivity.
  - destruct F1 as [A1 _ _ _ _]. destruct (proj1 F2) as [A2 _ _ _ _].
    destruct F3 as [A3 _ _ _ _]. destruct (proj1 F4) as [A4 _ _ _ _].
    destruct (proj1 F5) as [A5 _ _ _ _].
    destruct (banner_slot _ _ _ R6) as [-> ->].
    rewrite printed_at_locate. change (stage 132) with 6.
    rewrite !events_of_app,
      (events_of_stage 1 6 d1 A1), (events_of_stage 2 6 d2 A2),
      (events_of_stage 3 6 d3 A3), (events_of_stage 4 6 d4 A4),
      (events_of_stage 5 6 d5 A5).
    destruct (is_some (outcome r5)); reflexivity.
Qed.

(** X2: when [main] raises, from any state, the raise of that exception is
    the last thing [main] did, the closing banner is not printed, and the
    raise is either the one of the constructor call of line 41, which lies
    in no [try], or the raise of an exception that is no instance of
    [Exception]. *)
Theorem main_raises_only_uncaught (w : World) (h : Trace) (e : Exn) :
  fst (main w h) = Raise e ->
  (exists d ln c,
      snd (main w h) = d ++ [ECall ln c (Raises e)] /\
      (ln = 41 \/ exn_is_exception e = false)) /\
  printed_at 132 (snd (main w h)) = false.
Proof.
  intros E. destruct (main_settled w h) as (S & G & B).
  rewrite E in S, B. cbn [outcome is_some negb] in S, B.
  split; [| exact B].
  destruct (settled_ends _ _ S) as (d & ln & c & Ed & U).
  exists d, ln, c. split; [exact Ed |].
  apply (uncaught_class ln c e U).
  rewrite forallb_forall in G. apply G. rewrite Ed. apply in_elt.
Qed.

Lemma main_raises_without_api_key :
  fst (main w_no_key prologue) = Raise no_key /\
  (exists d ln c,
      snd (main w_no_key prologue) = d ++ [ECall ln c (Raises no_key)] /\
      (ln = 41 \/ exn_is_exception no_key = false)) /\
  printed_at 132 (snd (main w_no_key prologue)) = false.
Proof.
  assert (fst (main w_no_key prologue) = Raise no_key) as E
    by (vm_compute; reflexivity).
  split; [exact E |].
  exact (main_raises_only_uncaught w_no_key prologue no_key E).
Defined.

(** ** X3: no failure message without a failure *)

(** X3: a handler never prints on its own: in every run, the event just
    before the print of an [except] clause (lines 35, 63, 85, 111, 114,
    130, 171) is a raise from a line that clause guards, and the text
    printed is the clause's prefix followed by the message of that very
    exception. *)
Theorem failure_message_follows_a_raise
        (w : World) (pre post : Trace) (hl : nat) (s : string) :
  script_trace w = pre ++ EPrint hl s :: post ->
  is_handler_line hl = true ->
  exists pre' ln c e pfx,
    pre = pre' ++ [ECall ln c (Raises e)] /\
    handler_of ln = Some (hl, pfx) /\
    s = pfx +++ exn_msg e.
Proof.
  intros E Hl.
  pose proof (whole_trace
                (fun d => forall prev, each_after failure_justified prev d)
                (each_after_app failure_justified)
                ltac:(intros prev; check_each)
                ltac:(intros prev; check_each)
                ltac:(intros prev; check_each)
                ltac:(intros prev; check_each)
                blocks_failure_justified w None) as J.
  rewrite E in J. apply each_after_at in J. cbn in J. specialize (J Hl).
  destruct (before None pre) as [[l s'|ln c [v|e]]|] eqn:B; try contradiction.
  destruct J as (pfx & Hh & ->).
  apply before_some in B. destruct B as [(_ & B) | (pre' & ->)]; [discriminate B |].
  exists pre', ln, c, e, pfx. auto.
Qed.

Lemma failure_message_when_server_is_down :
  let t := script_trace w_down in
  t = firstn 8 t ++ EPrint 35 (error_text refused) :: skipn 9 t /\
  is_handler_line 35 = true /\
  exists pre' ln c e pfx,
    firstn 8 t = pre' ++ [ECall ln c (Raises e)] /\
    handler_of ln = Some (35, pfx) /\
    error_text refused = pfx +++ exn_msg e.
Proof.
  intros t.
  assert (t = firstn 8 t ++ EPrint 35 (error_text refused) :: skipn 9 t) as E
    by (vm_compute; reflexivity).
  split; [exact E |]. split; [reflexivity |].
  exact (failure_message_follows_a_raise w_down _ _ 35 _ E eq_refl).
Defined.

(** ** X4: a forecast line shows what was read *)

(** X4: in every run, the event just before a line that prints a forecast
    (lines 31, 50, 58, 82, 100, 109, 163) is a read of [.forecast] made by
    that same line which returned, and the text printed ends with the
    rendering of the value it returned. *)
Theorem forecast_line_shows_the_value_read
        (w : World) (pre post : Trace) (ln : nat) (s : string) :
  script_trace w = pre ++ EPrint ln s :: post ->
  is_forecast_line ln = true ->
  exists pre' r v pfx,
    pre = pre' ++ [ECall ln (CGetAttr r "forecast") (Returns v)] /\
    s = pfx +++ obj_repr v.
Proof.
  intros E Hl.
  pose proof (whole_trace
                (fun d => forall prev, each_after forecast_justified prev d)
                (each_after_app forecast_justified)
                ltac:(intros prev; check_each)
                ltac:(intros prev; check_each)
                ltac:(intros prev; check_each)
                ltac:(intros prev; check_each)
                blocks_forecast_justified w None) as J.
  rewrite E in J. apply each_after_at in J. cbn in J. specialize (J Hl).
  destruct (before None pre) as [[l s'|l c o]|] eqn:B; try contradiction.
  destruct c; try contradiction. destruct o as [v|e]; try contradiction.
  destruct J as (-> & -> & pfx & ->).
  apply before_some in B. destruct B as [(_ & B) | (pre' & ->)]; [discriminate B |].
  do 4 eexists. split; reflexivity.
Qed.

Lemma forecast_line_when_server_is_up :
  let t := script_trace w_up in
  t = firstn 9 t ++ EPrint 31 ("✅ Forecast: " +++ obj_repr some_obj) :: skipn 10 t /\
  is_forecast_line 31 = true /\
  exists pre' r v pfx,
    firstn 9 t = pre' ++ [ECall 31 (CGetAttr r "forecast") (Returns v)] /\
    "✅ Forecast: " +++ obj_repr some_obj = pfx +++ obj_repr v.
Proof.
  intros t.
  assert (t = firstn 9 t ++ EPrint 31 ("✅ Forecast: " +++ obj_repr some_obj)
                :: skipn 10 t) as E
    by (vm_compute; reflexivity).
  split; [exact E |]. split; [reflexivity |].
  exact (forecast_line_shows_the_value_read w_up _ _ 31 _ E eq_refl).
Defined.

(** ** X5: a caught failure ends its example *)

Lemma blocks_raise_ends : every_block raise_ends.
Proof.
  blockwise; intros ln0 c0 e0 I N Xe0; cbn in I;
    repeat match type of I with _ \/ _ => destruct I as [I | I] end;
    try contradiction; try discriminate I;
    inversion I; subst; try congruence;
    do 2 eexists; split; reflexivity.
Qed.

(** X5: once a guarded call raises an instance of [Exception], its example
    is over: in every run the raise and the print of its handler are the
    last two events of the example, so no later statement of that example
    runs. *)
Theorem raise_ends_its_example
        (w : World) (pre post : Trace) (ln : nat) (c : Call) (e : Exn) :
  script_trace w = pre ++ ECall ln c (Raises e) :: post ->
  ln <> 41 ->
  exn_is_exception e = true ->
  exists hl pfx,
    handler_of ln = Some (hl, pfx) /\
    last_two (events_of (stage ln) (script_trace w))
    = Some (ECall ln c (Raises e), EPrint hl (pfx +++ exn_msg e)).
Proof.
  intros E N X.
  assert (In (ECall ln c (Raises e)) (script_trace w)) as I
    by (rewrite E; apply in_elt).
  pose proof (call_in_block raise_ends blocks_raise_ends
                ltac:(intros ln0 c0 e0 []) w ln c _ I) as Q.
  apply Q; [| exact N | exact X].
  apply in_events_of_stage; [exact I | reflexivity].
Qed.

Lemma raise_ends_example2_when_server_is_down :
  let t := script_trace w_down in
  let c := CListModels some_obj in
  t = firstn 12 t ++ ECall 45 c (Raises refused) :: skipn 13 t /\
  45 <> 41 /\
  exn_is_exception refused = true /\
  exists hl pfx,
    handler_of 45 = Some (hl, pfx) /\
    last_two (events_of (stage 45) t)
    = Some (ECall 45 c (Raises refused), EPrint hl (pfx +++ exn_msg refused)).
Proof.
  intros t c.
  assert (t = firstn 12 t ++ ECall 45 c (Raises refused) :: skipn 13 t) as E
    by (vm_compute; reflexivity).
  assert (45 <> 41) as N by discriminate.
  split; [exact E |]. split; [exact N |]. split; [reflexivity |].
  exact (raise_ends_its_example w_down _ _ 45 c refused E N eq_refl).
Defined.

(** ** X6: reads go to the latest response *)

Lemma latest_response_step (acc : option PyObj) (ev : Event) (t : Trace) :
  latest_response acc (ev :: t) = latest_response (latest_response acc [ev]) t.
Proof. destruct ev as [l s|l c [v|e]]; reflexivity. Qed.

Lemma reads_latest_app (a b : Trace) :
  (forall acc, reads_latest acc a) -> (forall acc, reads_latest acc b) ->
  forall acc, reads_latest acc (a ++ b).
Proof.
  intros Ha Hb acc. specialize (Ha acc). revert acc Ha.
  induction a as [|[l s|l c o] a IH]; cbn [app reads_latest]; intros acc Ha.
  - apply Hb.
  - apply IH. exact Ha.
  - destruct Ha as [H1 H2]. split; [exact H1 | apply IH; exact H2].
Qed.

Lemma reads_latest_at (acc : option PyObj) (pre post : Trace) (ln : nat)
      (c : Call) (o : Outcome) (r : PyObj) :
  reads_latest acc (pre ++ ECall ln c o :: post) ->
  read_target c = Some r ->
  latest_response acc pre = Some r.
Proof.
  revert acc. induction pre as [|[l s|l c' o'] pre IH];
    cbn [app reads_latest]; intros acc H R.
  - destruct H as [H _]. cbn. auto.
  - cbn. auto.
  - destruct H as [_ H]. rewrite latest_response_step. auto.
Qed.

Lemma blocks_reads_latest : every_block (fun d => forall acc, reads_latest acc d).
Proof. blockwise; check_each. Qed.

(** X6: every attribute read and every [to_pandas] call is made on the
    object returned by the latest predict call that returned before it;
    in example 2, where [response] is assigned twice, the reads of lines
    58-60 are made on the second response. *)
Theorem reads_use_latest_response
        (w : World) (pre post : Trace) (ln : nat) (c : Call) (o : Outcome)
        (r : PyObj) :
  script_trace w = pre ++ ECall ln c o :: post ->
  read_target c = Some r ->
  latest_response None pre = Some r.
Proof.
  intros E R.
  pose proof (whole_trace (fun d => forall acc, reads_latest acc d)
                reads_latest_app
                ltac:(intros acc; check_each)
                ltac:(intros acc; check_each)
                ltac:(intros acc; check_each)
                ltac:(intros acc; check_each)
                blocks_reads_latest w None) as J.
  rewrite E in J. eapply reads_latest_at; eassumption.
Qed.

Lemma reads_use_latest_response_when_server_is_up :
  let t := script_trace w_up in
  let c := CGetAttr some_obj "forecast" in
  t = firstn 23 t ++ ECall 58 c (Returns some_obj) :: skipn 24 t /\
  read_target c = Some some_obj /\
  latest_response None (firstn 23 t) = Some some_obj.
Proof.
  intros t c.
  assert (t = firstn 23 t ++ ECall 58 c (Returns some_obj) :: skipn 24 t) as E
    by (vm_compute; reflexivity).
  split; [exact E |]. split; [reflexivity |].
  exact (reads_use_latest_response w_up _ _ 58 c _ some_obj E eq_refl).
Defined.

(** ** X7: methods are called on the constructed client *)

Lemma methods_on_app (A : PyObj -> Prop) (a b : Trace) :
  methods_on A a -> methods_on A b -> methods_on A (a ++ b).
Proof.
  induction a as [|[l s|l c o] a IH]; cbn; intros Ha Hb; auto.
  destruct Ha as [H1 H2]. auto.
Qed.

Lemma methods_on_weaken (A B : PyObj -> Prop) (t : Trace) :
  (forall x, A x -> B x) -> methods_on A t -> methods_on B t.
Proof.
  intros AB. induction t as [|[l s|l c o] t IH]; cbn; auto.
  intros [H1 H2]. split; auto.
Qed.

Lemma methods_on_in (A : PyObj -> Prop) (t : Trace) (ln : nat) (c : Call)
      (o : Outcome) (x : PyObj) :
  methods_on A t -> In (ECall ln c o) t -> client_of c = Some x -> A x.
Proof.
  induction t as [|[l s|l c' o'] t IH]; cbn; intros H I Hc.
  - contradiction.
  - destruct I as [I | I]; [discriminate I | auto].
  - destruct H as [H1 H2]. destruct I as [I | I]; [| auto].
    inversion I. subst. auto.
Qed.

Lemma blocks_without_client (w : World) (h : Trace) :
  methods_on (fun _ => False) (snd (example1 w h)) /\
  methods_on (fun _ => False) (snd (pandas_example w h)).
Proof. split; unfold_blocks; run_block; check_each. Qed.

Lemma blocks_with_client (w : World) (h : Trace) (client : PyObj) :
  methods_on (eq client) (snd (example3 client w h)) /\
  methods_on (eq client) (snd (example4 client w h)) /\
  methods_on (eq client) (snd (example5 client w h)).
Proof.
  repeat match goal with |- _ /\ _ => split end;
    unfold_blocks; run_block; check_each; congruence.
Qed.

(** example 2 calls its methods on what its constructor call returned *)
Lemma example2_on_its_client (w : World) (h : Trace) :
  let (_, d) := example2 w h in
  forall A : PyObj -> Prop,
    (forall x, In (ECall 41 CConstruct (Returns x)) d -> A x) -> methods_on A d.
Proof.
  unfold_blocks; run_block; intros A HA; cbn [methods_on client_of app];
    repeat match goal with
           | |- _ /\ _ => split
           | |- True => exact I
           | |- forall _, _ = _ -> _ =>
               let x := fresh "x" in
               let H := fresh "H" in
               intros x H; try discriminate H; inversion H; subst;
               apply HA; find_in
           end.
Qed.

(** and hands on that object *)
Lemma example2_returns_client (w : World) (h : Trace) (v : PyObj) :
  fst (example2 w h) = Ok v ->
  In (ECall 41 CConstruct (Returns v)) (snd (example2 w h)).
Proof.
  unfold_blocks; run_block; cbn [fst snd]; intros H;
    try discriminate H; inversion H; subst; find_in.
Qed.

Lemma follows_inv {A : Type} (o : option Exn) (run : Res A * Trace)
      (r : Res A) (d : Trace) :
  follows o run (r, d) ->
  (o = None /\ run = (r, d)) \/ (d = [] /\ exists e, o = Some e /\ r = Raise e).
Proof.
  destruct o as [e|]; cbn; intros E.
  - right. inversion E. split; [reflexivity |]. exists e. auto.
  - left. auto.
Qed.

(** a part that ended normally was reached *)
Lemma follows_ok {A : Type} (o : option Exn) (run : Res A * Trace)
      (r : Res A) (d : Trace) :
  follows o run (r, d) -> outcome r = None -> o = None.
Proof.
  intros E O. destruct (follows_inv _ _ _ _ E) as [[-> _] | (_ & e & _ & ->)];
    [reflexivity | discriminate O].
Qed.

(** X7: every method call of a run ([list_models], [predict],
    [health_check], [get_model_info]) is made on the object that the
    constructor call of line 41 returned in that run. *)
Theorem methods_called_on_constructed_client
        (w : World) (ln : nat) (c : Call) (o : Outcome) (x : PyObj) :
  In (ECall ln c o) (script_trace w) ->
  client_of c = Some x ->
  In (ECall 41 CConstruct (Returns x)) (script_trace w).
Proof.
  intros I Hc.
  assert (methods_on (fun x => In (ECall 41 CConstruct (Returns x)) (script_trace w))
                     (script_trace w)) as M.
  { destruct (script_has_parts w) as [rm dm h7 r7 d7 t P Em E7 ->].
    destruct P as [h1 h2 h3 h4 h5 cl r1 d1 r2 d2 r3 d3 r4 d4 r5 d5 r6 fin dm
                     E1 E2 Ecl E3 E4 E5 E6 ->].
    enough (forall A : PyObj -> Prop,
               (forall y, In (ECall 41 CConstruct (Returns y)) d2 -> A y) ->
               methods_on A (prologue ++ (banner ++ d1 ++ d2 ++ d3 ++ d4 ++ d5 ++ fin)
                                      ++ d7)) as G.
    { apply G. intros y Iy. rewrite !in_app_iff. tauto. }
    intros A HA.
    assert (forall B : PyObj -> Prop, methods_on B d1) as M1.
    { intros B. replace d1 with (snd (example1 w h1)) by (rewrite E1; reflexivity).
      eapply methods_on_weaken;
        [| apply (proj1 (blocks_without_client w h1))]. contradiction. }
    assert (methods_on A d2) as M2.
    { destruct (follows_inv _ _ _ _ E2) as [[_ E] | [-> _]]; [| exact Logic.I].
      pose proof (example2_on_its_client w h2) as M2. rewrite E in M2.
      exact (M2 A HA). }
    assert (outcome r2 = None -> forall y, cl = y -> A y) as V.
    { intros O2 y <-. apply HA.
      destruct r2 as [v|e]; [| discriminate O2].
      rewrite <- (Ecl v eq_refl).
      destruct (follows_inv _ _ _ _ E2) as [[_ E] | (_ & e & _ & E)];
        [| discriminate E].
      pose proof (example2_returns_client w h2 v) as R. rewrite E in R.
      apply R. reflexivity. }
    assert (methods_on A d3) as M3.
    { destruct (follows_inv _ _ _ _ E3) as [[O E] | [-> _]]; [| exact Logic.I].
      replace d3 with (snd (example3 cl w h3)) by (rewrite E; reflexivity).
      eapply methods_on_weaken;
        [exact (V O) | apply (proj1 (blocks_with_client w h3 cl))]. }
    assert (methods_on A d4) as M4.
    { destruct (follows_inv _ _ _ _ E4) as [[O E] | [-> _]]; [| exact Logic.I].
      replace d4 with (snd (example4 cl w h4)) by (rewrite E; reflexivity).
      eapply methods_on_weaken;
        [exact (V (follows_ok _ _ _ _ E3 O))
        | apply (proj1 (proj2 (blocks_with_client w h4 cl)))]. }
    assert (methods_on A d5) as M5.
    { destruct (follows_inv _ _ _ _ E5) as [[O E] | [-> _]]; [| exact Logic.I].
      replace d5 with (snd (example5 cl w h5)) by (rewrite E; reflexivity).
      eapply methods_on_weaken;
        [exact (V (follows_ok _ _ _ _ E3 (follows_ok _ _ _ _ E4 O)))
        | apply (proj2 (proj2 (blocks_with_client w h5 cl)))]. }
    assert (methods_on A fin) as M6.
    { destruct (follows_cases _ _ _ _ E6) as [-> | ->]; cbn; exact Logic.I. }
    assert (methods_on A d7) as M7.
    { destruct (follows_cases _ _ _ _ E7) as [-> | ->]; [| exact Logic.I].
      eapply methods_on_weaken;
        [| apply (proj2 (blocks_without_client w h7))]. contradiction. }
    repeat apply methods_on_app; try assumption.
    - cbn. exact Logic.I.
    - cbn. exact Logic.I.
    - apply M1. }
  exact (methods_on_in _ _ ln c o x M I Hc).
Qed.

Lemma health_check_on_constructed_client_when_server_is_down :
  In (ECall 122 (CHealthCheck some_obj) (Raises refused)) (script_trace w_down) /\
  client_of (CHealthCheck some_obj) = Some some_obj /\
  In (ECall 41 CConstruct (Returns some_obj)) (script_trace w_down).
Proof.
  assert (In (ECall 122 (CHealthCheck some_obj) (Raises refused))
             (script_trace w_down)) as I by (vm_compute; tauto).
  split; [exact I |]. split; [reflexivity |].
  exact (methods_called_on_constructed_client w_down 122 _ _ some_obj I eq_refl).
Defined.

(** ** X8: how often the library is called *)

Lemma count_calls_app (a b : Trace) :
  count_calls (a ++ b) = count_calls a + count_calls b.
Proof. unfold count_calls. rewrite filter_app, length_app. reflexivity. Qed.

Lemma count_predicts_app (a b : Trace) :
  count_predicts (a ++ b) = count_predicts a + count_predicts b.
Proof. unfold count_predicts. rewrite filter_app, length_app. reflexivity. Qed.

Lemma blocks_call_counts (w : World) (h : Trace) (c : PyObj) :
  (1 <= count_calls (snd (example1 w h)) <= 4 /\
   count_predicts (snd (example1 w h)) = 1) /\
  (1 <= count_calls (snd (example2 w h)) <= 8 /\
   count_predicts (snd (example2 w h)) <= 2) /\
  (count_calls (snd (example3 c w h)) <= 2 /\
   count_predicts (snd (example3 c w h)) <= 1) /\
  (count_calls (snd (example4 c w h)) <= 4 /\
   count_predicts (snd (example4 c w h)) <= 2) /\
  (count_calls (snd (example5 c w h)) <= 2 /\
   count_predicts (snd (example5 c w h)) = 0) /\
  (count_calls (snd (pandas_example w h)) <= 3 /\
   count_predicts (snd (pandas_example w h)) <= 1).
Proof.
  repeat match goal with |- _ /\ _ => split end;
    unfold_blocks; run_block; cbn; lia.
Qed.

(** X8: a run makes between 1 and 23 calls into the library, of which
    between 1 and 7 are forecast requests.  Both upper bounds are met in
    the world where every call returns a true value, both lower bounds in
    the world where the first call raises an exception that is no instance
    of [Exception]; when every call raises an instance of [Exception], the
    run makes two calls, one of them a forecast request. *)
Theorem library_call_budget :
  (forall w,
     1 <= count_calls (script_trace w) <= 23 /\
     1 <= count_predicts (script_trace w) <= 7) /\
  (count_calls (script_trace w_up) = 23 /\
   count_predicts (script_trace w_up) = 7) /\
  (count_calls (script_trace w_interrupted) = 1 /\
   count_predicts (script_trace w_interrupted) = 1) /\
  (count_calls (script_trace w_nothing) = 2 /\
   count_predicts (script_trace w_nothing) = 1).
Proof.
  split; [| repeat split; reflexivity].
  intros w.
  destruct (script_has_parts w) as [rm dm h7 r7 d7 t P Em E7 ->].
  destruct P as [h1 h2 h3 h4 h5 cl r1 d1 r2 d2 r3 d3 r4 d4 r5 d5 r6 fin dm
                   E1 E2 Ecl E3 E4 E5 E6 ->].
  assert (1 <= count_calls d1 <= 4 /\ count_predicts d1 = 1) as C1.
  { replace d1 with (snd (example1 w h1)) by (rewrite E1; reflexivity).
    apply (blocks_call_counts w h1 cl). }
  assert (count_calls d2 <= 8 /\ count_predicts d2 <= 2) as C2.
  { destruct (follows_cases _ _ _ _ E2) as [-> | ->]; [| cbn; lia].
    pose proof (proj1 (proj2 (blocks_call_counts w h2 cl))). lia. }
  assert (count_calls d3 <= 2 /\ count_predicts d3 <= 1) as C3.
  { destruct (follows_cases _ _ _ _ E3) as [-> | ->]; [| cbn; lia].
    apply (blocks_call_counts w h3 cl). }
  assert (count_calls d4 <= 4 /\ count_predicts d4 <= 2) as C4.
  { destruct (follows_cases _ _ _ _ E4) as [-> | ->]; [| cbn; lia].
    apply (blocks_call_counts w h4 cl). }
  assert (count_calls d5 <= 2 /\ count_predicts d5 = 0) as C5.
  { destruct (follows_cases _ _ _ _ E5) as [-> | ->]; [| cbn; lia].
    apply (blocks_call_counts w h5 cl). }
  assert (count_calls fin = 0 /\ count_predicts fin = 0) as C6.
  { destruct (follows_cases _ _ _ _ E6) as [-> | ->]; split; reflexivity. }
  assert (count_calls d7 <= 3 /\ count_predicts d7 <= 1) as C7.
  { destruct (follows_cases _ _ _ _ E7) as [-> | ->]; [| cbn; lia].
    apply (blocks_call_counts w h7 cl). }
  rewrite !count_calls_app, !count_predicts_app.
  change (count_calls prologue) with 0. change (count_calls banner) with 0.
  change (count_predicts prologue) with 0.
  change (count_predicts banner) with 0.
  lia.
Qed.

(** ** X9: the confidence intervals of example 2 *)




(** ** X10: calls are made in source order *)



(** X10: the library is called in the order of the source lines and no
    line calls it twice: of any two calls of a run, the earlier one comes
    from the smaller line.  The script never loops back or retries. *)
Theorem calls_follow_source_order
        (w : World) (pre mid post : Trace) (l1 l2 : nat) (c1 c2 : Call)
        (o1 o2 : Outcome) :
  script_trace w = pre ++ ECall l1 c1 o1 :: mid ++ ECall l2 c2 o2 :: post ->
  l1 < l2.
Proof.
  intros E. pose proof (script_calls_ascend w) as A. rewrite E in A.
  eapply calls_ascend_ordered. exact A.
Qed.

Lemma calls_follow_source_order_when_server_is_up :
  let t := script_trace w_up in
  let c1 := CPredictFn (mkArgs (DList [10; 12; 13; 15; 17; 16; 18; 20; 22; 25]%Z)
                               (Some 5%Z) None None) in
  t = firstn 7 t ++ ECall 27 c1 (Returns some_obj)
        :: firstn 8 (skipn 8 t)
        ++ ECall 41 CConstruct (Returns some_obj) :: skipn 17 t /\
  27 < 41.
Proof.
  intros t c1.
  assert (t = firstn 7 t ++ ECall 27 c1 (Returns some_obj)
                :: firstn 8 (skipn 8 t)
                ++ ECall 41 CConstruct (Returns some_obj) :: skipn 17 t) as E
    by (vm_compute; reflexivity).
  split; [exact E |].
  exact (calls_follow_source_order w_up _ _ _ 27 41 _ _ _ _ E).
Defined.
